(** * sphere-agent-config: the device configuration generator

    A shallow embedding of [scripts/generate_device_config.py]: the
    synthesizer [generate_single_config], the validator [validate_config]
    and the batch loop of [main], followed by the properties the
    specification states about them.

    Modelling conventions.
    - A Python [dict] decoded from JSON is a [gmap string pyval]; the values
      are the JSON values without floats (no definition below inspects a
      number other than for truthiness).
    - A Python [str] is the [string] of its UTF-8 bytes.  Concatenation,
      emptiness and [startswith] do not see the difference; the slice
      [key[:10]] counts code points and is modelled by [slice_to].
    - An exception is a value of [exn] carried by the error monad [result].
    - The output directory is a finite map from file names to the records
      written under them; writing a name again replaces the record, as
      [open(path, "w")] does.  The names are the file names as the loop
      computes them, before they are joined to the directory path, and a
      write is taken to succeed: failures of the storage itself are outside
      the model. *)

From Stdlib Require Import ZArith Lia Ascii String DecimalString DecimalZ DecimalFacts.
From stdpp Require Import base option strings list gmap.

Set Warnings "-register-all".
Local Open Scope Z_scope.

(** ** Python values *)

Inductive pyval : Type :=
| PNone
| PBool (b : bool)
| PInt (z : Z)
| PStr (s : string)
| PList (l : list pyval)
| PDict (d : gmap string pyval).

(** Truth value testing, as [if v:] and [v or w] do. *)
Definition truthy (v : pyval) : bool :=
  match v with
  | PNone => false
  | PBool b => b
  | PInt z => negb (z =? 0)
  | PStr s => negb (String.eqb s "")
  | PList l => match l with [] => false | _ => true end
  | PDict d => negb (bool_decide (d = ∅))
  end.

(** An optional command-line or keyword argument: [None] when not passed. *)
Definition of_str (o : option string) : pyval :=
  match o with Some s => PStr s | None => PNone end.

Definition of_int (o : option Z) : pyval :=
  match o with Some z => PInt z | None => PNone end.

Definition given (o : option string) : bool := truthy (of_str o).

(** ** Exceptions *)

Inductive exn : Type :=
| KeyError (k : string)
| TypeError
| AttributeError.

Inductive result (A : Type) : Type :=
| Ok (a : A)
| Raise (e : exn).
Arguments Ok {A} a.
Arguments Raise {A} e.

#[global] Instance result_ret : MRet result := fun A a => Ok a.
#[global] Instance result_bind : MBind result := fun A B f m =>
  match m with Ok a => f a | Raise e => Raise e end.

(** [d[k]] and [d.get(k, dflt)] on a dict. *)
Definition py_index (d : gmap string pyval) (k : string) : result pyval :=
  match d !! k with Some v => Ok v | None => Raise (KeyError k) end.

Definition py_get (d : gmap string pyval) (k : string) (dflt : pyval) : pyval :=
  default dflt (d !! k).

(** [a or b] where [a] is an optional string argument. *)
Definition py_or (a : option string) (b : pyval) : pyval :=
  if given a then of_str a else b.

(** ** Strings *)

(** A UTF-8 continuation byte, [10xxxxxx]: it belongs to the code point
    started before it. *)
Definition is_continuation (c : ascii) : bool :=
  match c with Ascii _ _ _ _ _ _ b6 b7 => b7 && negb b6 end.

(** [s[:n]]: the first [n] code points of [s]. *)
Fixpoint slice_to (n : nat) (s : string) : string :=
  match s with
  | EmptyString => EmptyString
  | String c r =>
      if is_continuation c then String c (slice_to n r)
      else match n with
           | O => EmptyString
           | S n' => String c (slice_to n' r)
           end
  end.

(** The format specification [03d] on an [int]: sign first, then the decimal
    digits filled with zeros on the left up to a total width of 3. *)
Definition zfill (w : nat) (d : Decimal.uint) : Decimal.uint :=
  Nat.iter (w - Decimal.nb_digits d) Decimal.D0 d.

Definition fmt03d (z : Z) : string :=
  match Z.to_int z with
  | Decimal.Pos d => NilEmpty.string_of_uint (zfill 3 d)
  | Decimal.Neg d => String "-" (NilEmpty.string_of_uint (zfill 2 d))
  end.

(** [f"{idx:03d}"]: [None] does not support the format. *)
Definition format_03d (idx : option Z) : result string :=
  match idx with Some z => Ok (fmt03d z) | None => Raise TypeError end.

(** ** validate_config *)

(** The schema document as the validator reads it: only its ["required"]
    entry, absent or an array of field names. *)
Record schema_doc : Type := { required : option (list string) }.

(** [schema.get("required", [])] *)
Definition schema_required (schema : schema_doc) : list string :=
  default [] (required schema).

(** [field not in config or config[field] is None] *)
Definition missing_or_null (config : gmap string pyval) (field : string) : bool :=
  match config !! field with
  | None => true
  | Some PNone => true
  | Some _ => false
  end.

Definition required_error (field : string) : string :=
  "Обязательное поле '" +:+ field +:+ "' отсутствует или null".

Definition key_format_error (key : string) : string :=
  "enrollment_api_key должен начинаться с 'sphr_', получено: "
    +:+ slice_to 10 key +:+ "...".

(** One iteration of the loop over the required fields. *)
Definition check_required (config : gmap string pyval)
    (errors : list string) (field : string) : list string :=
  if missing_or_null config field
  then errors ++ [required_error field]
  else errors.

Definition validate_config (config : gmap string pyval) (schema : schema_doc)
    : result (list string) :=
  let errors := foldl (check_required config) [] (schema_required schema) in
  let key := py_get config "enrollment_api_key" (PStr "") in
  match key with
  | PStr s =>
      if truthy key && negb (String.prefix "sphr_" s)
      then Ok (errors ++ [key_format_error s])
      else Ok errors
  | _ =>
      (* only a [str] has [startswith] *)
      if truthy key then Raise AttributeError else Ok errors
  end.

(** ** generate_single_config *)

Definition default_features : gmap string pyval :=
  <["auto_register" := PBool true]>
  (<["ota_enabled" := PBool true]>
  (<["streaming_enabled" := PBool true]>
  (<["telemetry_enabled" := PBool true]> ∅))).

(** [config["meta"][k] = v] *)
Definition meta_set (config : gmap string pyval) (k : string) (v : pyval)
    : gmap string pyval :=
  match config !! "meta" with
  | Some (PDict meta) => <["meta" := PDict (<[k := v]> meta)]> config
  | _ => config
  end.

Definition generate_single_config (env_config : gmap string pyval)
    (workstation_id : option string) (instance_index : option Z)
    (location : option string) (ldplayer_name : option string)
    : result (gmap string pyval) :=
  config_version ← py_index env_config "config_version";
  server_url ← py_index env_config "server_url";
  enrollment_api_key ← py_index env_config "enrollment_api_key";
  let config : gmap string pyval :=
    <["meta" := PDict ∅]>
    (<["features" := py_get env_config "features" (PDict default_features)]>
    (<["config_poll_interval_seconds" :=
         py_get env_config "config_poll_interval_seconds" (PInt 86400)]>
    (<["environment" := py_get env_config "environment" (PStr "production")]>
    (<["location" := py_or location (py_get env_config "location" PNone)]>
    (<["instance_index" := of_int instance_index]>
    (<["workstation_id" := of_str workstation_id]>
    (<["device_id" := PNone]>
    (<["enrollment_api_key" := enrollment_api_key]>
    (<["ws_path" := py_get env_config "ws_path" (PStr "/ws/android")]>
    (<["server_url" := server_url]>
    (<["config_version" := config_version]> ∅))))))))))) in
  let config :=
    if given ldplayer_name
    then meta_set config "ldplayer_name" (of_str ldplayer_name)
    else config in
  let config :=
    if given workstation_id && bool_decide (is_Some instance_index)
    then meta_set config "clone_source" (PStr "auto-generated")
    else config in
  Ok config.

(** ** main: the batch loop *)

(** The parsed command line, after [--env] has been resolved to its
    environment document. *)
Record args : Type := {
  workstation_id : option string;
  instance_index : option Z;
  location : option string;
  ldplayer_name : option string;
  count : Z;
  start_index : Z;
  output_file : option string
}.

(** [idx = args.start_index + i if args.workstation_id else args.instance_index] *)
Definition unit_idx (a : args) (i : Z) : option Z :=
  if given (workstation_id a) then Some (start_index a + i)
  else instance_index a.

(** The display name handed to the synthesizer. *)
Definition unit_name (a : args) (i : Z) : result (option string) :=
  let name := ldplayer_name a in
  if count a >? 1 then
    if given name then Ok name
    else s ← format_03d (unit_idx a i); Ok (Some ("Farm-" +:+ s))
  else Ok name.

Definition unit_config (a : args) (env_config : gmap string pyval) (i : Z)
    : result (gmap string pyval) :=
  name ← unit_name a i;
  generate_single_config env_config (workstation_id a) (unit_idx a i)
    (location a) name.

Definition unit_filename (a : args) (i : Z) : result string :=
  if count a =? 1 then
    Ok (if given (output_file a) then default "" (output_file a)
        else "sphere-agent-config.json")
  else
    s ← format_03d (unit_idx a i);
    Ok ("sphere-agent-config-" +:+ s +:+ ".json").

(** What one pass through the loop body comes to. *)
Inductive unit_outcome : Type :=
| UnitRaise (e : exn)
| UnitInvalid (errors : list string)
| UnitWrite (filename : string) (config : gmap string pyval).

Definition loop_body (a : args) (env_config : gmap string pyval)
    (schema : schema_doc) (i : Z) : unit_outcome :=
  match unit_config a env_config i with
  | Raise e => UnitRaise e
  | Ok config =>
      match validate_config config schema with
      | Raise e => UnitRaise e
      | Ok [] =>
          match unit_filename a i with
          | Raise e => UnitRaise e
          | Ok filename => UnitWrite filename config
          end
      | Ok errors => UnitInvalid errors
      end
  end.

(** How the process ends: the summary with the number of records generated,
    [sys.exit(1)] after the validation errors of unit [i] were printed, or
    an uncaught exception. *)
Inductive outcome : Type :=
| Finished (generated : Z)
| ValidationExit (i : Z) (errors : list string)
| Uncaught (e : exn).

Definition exit_status (o : outcome) : Z :=
  match o with Finished _ => 0 | _ => 1 end.

(** The output directory: file name to record. *)
Abbreviation files := (gmap string (gmap string pyval)).

Fixpoint run_loop (body : Z → unit_outcome) (units : list Z)
    (generated : Z) (fs : files) : outcome * files :=
  match units with
  | [] => (Finished generated, fs)
  | i :: rest =>
      match body i with
      | UnitRaise e => (Uncaught e, fs)
      | UnitInvalid errors => (ValidationExit i errors, fs)
      | UnitWrite filename config =>
          run_loop body rest (generated + 1) (<[filename := config]> fs)
      end
  end.

(** [range(args.count)] *)
Definition range (n : Z) : list Z := seqZ 0 n.

Definition main (a : args) (env_config : gmap string pyval)
    (schema : schema_doc) (fs : files) : outcome * files :=
  run_loop (loop_body a env_config schema) (range (count a)) 0 fs.

(** The files written by the units of [units], in order, on top of [fs]. *)
Definition written (body : Z → unit_outcome) (units : list Z) (fs : files)
    : files :=
  foldl (fun fs i =>
           match body i with
           | UnitWrite filename config => <[filename := config]> fs
           | _ => fs
           end) fs units.

(** ** Sample documents *)

Definition env_minimal : gmap string pyval :=
  <["enrollment_api_key" := PStr "sphr_dev_0123456789"]>
  (<["server_url" := PStr "https://dev.example.org"]>
  (<["config_version" := PInt 1]> ∅)).

Definition env_full : gmap string pyval :=
  <["features" := PDict (<["ota_enabled" := PBool false]> ∅)]>
  (<["config_poll_interval_seconds" := PInt 300]>
  (<["environment" := PStr "development"]>
  (<["location" := PStr "msk-office-1"]>
  (<["ws_path" := PStr "/ws/dev"]> env_minimal)))).

Definition env_bad_key : gmap string pyval :=
  <["enrollment_api_key" := PStr "secret-key-0123456789"]> env_minimal.

Definition record_bad_key : gmap string pyval :=
  <["server_url" := PStr "https://dev.example.org"]>
  (<["enrollment_api_key" := PStr "secret-key-0123456789"]> ∅).

Definition schema_absent : schema_doc := {| required := None |}.

Definition schema_basic : schema_doc :=
  {| required := Some ["config_version"; "server_url"; "enrollment_api_key"] |}.

Definition schema_device : schema_doc :=
  {| required := Some ["server_url"; "device_id"; "location"] |}.

Definition farm (n : Z) (start : Z) : args :=
  {| workstation_id := Some "ws-PC-FARM-01"; instance_index := None;
     location := Some "msk-office-1"; ldplayer_name := None;
     count := n; start_index := start; output_file := None |}.

Definition single (idx : option Z) (n : Z) : args :=
  {| workstation_id := None; instance_index := idx;
     location := None; ldplayer_name := None;
     count := n; start_index := 0; output_file := None |}.

(** ** Auxiliary definitions for the properties *)

(** The twelve entries of the record, before [meta] is filled. *)
Definition base_config (env_config : gmap string pyval)
    (workstation_id : option string) (instance_index : option Z)
    (location : option string) (v1 v2 v3 : pyval) : gmap string pyval :=
  <["meta" := PDict ∅]>
  (<["features" := py_get env_config "features" (PDict default_features)]>
  (<["config_poll_interval_seconds" :=
       py_get env_config "config_poll_interval_seconds" (PInt 86400)]>
  (<["environment" := py_get env_config "environment" (PStr "production")]>
  (<["location" := py_or location (py_get env_config "location" PNone)]>
  (<["instance_index" := of_int instance_index]>
  (<["workstation_id" := of_str workstation_id]>
  (<["device_id" := PNone]>
  (<["enrollment_api_key" := v3]>
  (<["ws_path" := py_get env_config "ws_path" (PStr "/ws/android")]>
  (<["server_url" := v2]>
  (<["config_version" := v1]> ∅))))))))))).

(** The [meta] mapping of a record for the given identity. *)
Definition meta_of (workstation_id : option string) (instance_index : option Z)
    (ldplayer_name : option string) : gmap string pyval :=
  let meta : gmap string pyval := ∅ in
  let meta := if given ldplayer_name
              then <["ldplayer_name" := of_str ldplayer_name]> meta else meta in
  if given workstation_id && bool_decide (is_Some instance_index)
  then <["clone_source" := PStr "auto-generated"]> meta else meta.

(** The number of code points of a string: its bytes that are not
    continuation bytes. *)
Fixpoint code_points (s : string) : nat :=
  match s with
  | EmptyString => O
  | String c r => if is_continuation c then code_points r else S (code_points r)
  end.

(** [e] is a credential-format error. *)
Definition format_error (e : string) : Prop :=
  ∃ key : string, e = key_format_error key.

(** The character of a decimal digit. *)
Definition digit (d : Z) : ascii := ascii_of_N (48 + Z.to_N d).

Definition args_empty_workstation : args :=
  {| workstation_id := Some ""; instance_index := None;
     location := None; ldplayer_name := None;
     count := 3; start_index := 5; output_file := None |}.

(** The validator's verdict on the record of unit [i]. *)
Definition unit_validation (a : args) (env_config : gmap string pyval)
    (schema : schema_doc) (i : Z) : result (list string) :=
  config ← unit_config a env_config i; validate_config config schema.

(** The unit passed validation and its file was written. *)
Definition is_write (o : unit_outcome) : Prop :=
  ∃ filename config, o = UnitWrite filename config.

Definition named_batch : args :=
  {| workstation_id := None; instance_index := None;
     location := None; ldplayer_name := Some "Box";
     count := 2; start_index := 0; output_file := None |}.

(** ** Further definitions: the schema loader and the record's keys *)

(** [load_schema]: the parsed content of [schema.json], or the empty dict
    when the file does not exist.  [schema_file] is [None] for a missing
    file. *)
Definition load_schema (schema_file : option schema_doc) : schema_doc :=
  default {| required := None |} schema_file.

(** The keys of the dict literal in [generate_single_config]. *)
Definition record_keys : list string :=
  ["config_version"; "server_url"; "ws_path"; "enrollment_api_key";
   "device_id"; "workstation_id"; "instance_index"; "location";
   "environment"; "config_poll_interval_seconds"; "features"; "meta"].

(** A single run with an override name: [--count 1 --output-file f]. *)
Definition single_named (f : string) : args :=
  {| workstation_id := None; instance_index := Some 42;
     location := Some "fra-dc-2"; ldplayer_name := None;
     count := 1; start_index := 0; output_file := Some f |}.

(** An environment document whose credential is a number. *)
Definition env_numeric_key : gmap string pyval :=
  <["enrollment_api_key" := PInt 12345]> env_minimal.

(** An environment document without a server URL. *)
Definition env_no_url : gmap string pyval :=
  <["enrollment_api_key" := PStr "sphr_dev_0123456789"]>
  (<["config_version" := PInt 1]> ∅).

(** ** The synthesizer on the object store

    Python dicts and lists are mutable objects held by reference.  To see
    what [generate_single_config] does to the objects it is given, and what
    it shares with them, the same function is written once more over a
    store of objects: the store is the list of the objects allocated so
    far, a reference is an index into it, and a new object goes to the
    end. *)

Inductive val : Type :=
| VNone
| VBool (b : bool)
| VInt (z : Z)
| VStr (s : string)
| VRef (l : nat).

Inductive obj : Type :=
| ODict (d : gmap string val)
| OList (l : list val).

(** A new object: its reference and the store that holds it. *)
Definition alloc (h : list obj) (o : obj) : nat * list obj :=
  (length h, h ++ [o]).

Definition vof_str (o : option string) : val :=
  match o with Some s => VStr s | None => VNone end.

Definition vof_int (o : option Z) : val :=
  match o with Some z => VInt z | None => VNone end.

(** [d[k1][k2] = v] for the dict at reference [c]. *)
Definition setitem_in (h : list obj) (c : nat) (k1 k2 : string) (v : val)
    : result () * list obj :=
  match h !! c with
  | Some (ODict d) =>
      match d !! k1 with
      | Some (VRef m) =>
          match h !! m with
          | Some (ODict md) => (Ok (), <[m := ODict (<[k2 := v]> md)]> h)
          | _ => (Raise TypeError, h)
          end
      | Some _ => (Raise TypeError, h)
      | None => (Raise (KeyError k1), h)
      end
  | _ => (Raise TypeError, h)
  end.

(** The dict literal of the default feature flags. *)
Definition default_features_obj : gmap string val :=
  <["auto_register" := VBool true]>
  (<["ota_enabled" := VBool true]>
  (<["streaming_enabled" := VBool true]>
  (<["telemetry_enabled" := VBool true]> ∅))).

(** [generate_single_config] with [env_config] a reference into the store
    [h]: the result is the exception or the reference of the new record,
    and the store afterwards.  The entries of the dict literal are
    evaluated in order, so the three subscripts raise before anything is
    allocated; the default for [features] is built whether or not it is
    used. *)
Definition generate_single_config_obj (h : list obj) (env_config : nat)
    (workstation_id : option string) (instance_index : option Z)
    (location : option string) (ldplayer_name : option string)
    : result nat * list obj :=
  match h !! env_config with
  | Some (ODict env) =>
      match env !! "config_version" with
      | None => (Raise (KeyError "config_version"), h)
      | Some config_version =>
      match env !! "server_url" with
      | None => (Raise (KeyError "server_url"), h)
      | Some server_url =>
      match env !! "enrollment_api_key" with
      | None => (Raise (KeyError "enrollment_api_key"), h)
      | Some enrollment_api_key =>
          let '(features_default, h) := alloc h (ODict default_features_obj) in
          let '(meta, h) := alloc h (ODict ∅) in
          let '(config, h) := alloc h (ODict (
            <["meta" := VRef meta]>
            (<["features" := default (VRef features_default) (env !! "features")]>
            (<["config_poll_interval_seconds" :=
                 default (VInt 86400) (env !! "config_poll_interval_seconds")]>
            (<["environment" :=
                 default (VStr "production") (env !! "environment")]>
            (<["location" :=
                 if given location then vof_str location
                 else default VNone (env !! "location")]>
            (<["instance_index" := vof_int instance_index]>
            (<["workstation_id" := vof_str workstation_id]>
            (<["device_id" := VNone]>
            (<["enrollment_api_key" := enrollment_api_key]>
            (<["ws_path" := default (VStr "/ws/android") (env !! "ws_path")]>
            (<["server_url" := server_url]>
            (<["config_version" := config_version]> ∅))))))))))))) in
          let '(r, h) :=
            if given ldplayer_name
            then setitem_in h config "meta" "ldplayer_name" (vof_str ldplayer_name)
            else (Ok (), h) in
          match r with
          | Raise e => (Raise e, h)
          | Ok _ =>
              let '(r, h) :=
                if given workstation_id && bool_decide (is_Some instance_index)
                then setitem_in h config "meta" "clone_source"
                       (VStr "auto-generated")
                else (Ok (), h) in
              match r with
              | Raise e => (Raise e, h)
              | Ok _ => (Ok config, h)
              end
          end
      end end end
  | _ => (Raise TypeError, h)
  end.

(** Two entries hold the same value: they are equal, or they refer to two
    objects with the same content. *)
Definition same_value (h : list obj) (v1 v2 : option val) : Prop :=
  v1 = v2 ∨
  ∃ l1 l2 o, v1 = Some (VRef l1) ∧ v2 = Some (VRef l2) ∧
             h !! l1 = Some o ∧ h !! l2 = Some o.

(** The value a reference stands for, read to the depth [n]. *)
Fixpoint reify (n : nat) (h : list obj) (v : val) : pyval :=
  match v with
  | VNone => PNone
  | VBool b => PBool b
  | VInt z => PInt z
  | VStr s => PStr s
  | VRef l =>
      match n with
      | O => PNone
      | S n' =>
          match h !! l with
          | Some (ODict d) => PDict (reify n' h <$> d)
          | Some (OList vs) => PList (reify n' h <$> vs)
          | None => PNone
          end
      end
  end.

(** Every reference held in the store points into the store. *)
Definition val_ok (h : list obj) (v : val) : Prop :=
  match v with VRef l => l < length h | _ => True end%nat.

Definition closed (h : list obj) : Prop :=
  ∀ l o, h !! l = Some o →
         match o with
         | ODict d => ∀ k v, d !! k = Some v → val_ok h v
         | OList vs => ∀ v, v ∈ vs → val_ok h v
         end.

(** The metadata and the record the synthesizer builds, as store objects. *)
Definition meta_obj (workstation_id : option string) (instance_index : option Z)
    (ldplayer_name : option string) : gmap string val :=
  let meta : gmap string val := ∅ in
  let meta := if given ldplayer_name
              then <["ldplayer_name" := vof_str ldplayer_name]> meta else meta in
  if given workstation_id && bool_decide (is_Some instance_index)
  then <["clone_source" := VStr "auto-generated"]> meta else meta.

Definition record_obj (env : gmap string val)
    (workstation_id : option string) (instance_index : option Z)
    (location : option string) (v1 v2 v3 : val) (features_default meta : nat)
    : gmap string val :=
  <["meta" := VRef meta]>
  (<["features" := default (VRef features_default) (env !! "features")]>
  (<["config_poll_interval_seconds" :=
       default (VInt 86400) (env !! "config_poll_interval_seconds")]>
  (<["environment" := default (VStr "production") (env !! "environment")]>
  (<["location" := if given location then vof_str location
                   else default VNone (env !! "location")]>
  (<["instance_index" := vof_int instance_index]>
  (<["workstation_id" := vof_str workstation_id]>
  (<["device_id" := VNone]>
  (<["enrollment_api_key" := v3]>
  (<["ws_path" := default (VStr "/ws/android") (env !! "ws_path")]>
  (<["server_url" := v2]>
  (<["config_version" := v1]> ∅))))))))))).

(** A store holding one environment document with a nested [features]
    dict. *)
Definition store_sample : list obj :=
  [ODict (<["ota_enabled" := VBool false]> ∅);
   ODict (<["features" := VRef 0]>
          (<["enrollment_api_key" := VStr "sphr_dev_0123456789"]>
          (<["server_url" := VStr "https://dev.example.org"]>
          (<["config_version" := VInt 1]> ∅))))].

(** * Properties *)

(** ** The error monad *)

Lemma bind_Ok {A B} (f : A → result B) (m : result A) (b : B) :
  m ≫= f = Ok b ↔ ∃ a, m = Ok a ∧ f a = Ok b.
Proof.
  destruct m as [a|e]; simpl; split.
  - intros H. exists a. split; [reflexivity | exact H].
  - intros (a' & Ha & Hf). injection Ha as ->. exact Hf.
  - intros H. discriminate H.
  - intros (a' & Ha & _). discriminate Ha.
Qed.

Lemma Ok_inj {A} (a b : A) : Ok a = Ok b → a = b.
Proof. intros H. by injection H. Qed.

Lemma py_index_Ok d k v : py_index d k = Ok v ↔ d !! k = Some v.
Proof.
  unfold py_index. destruct (d !! k); split; intros H; congruence.
Qed.

(** ** Truth values of optional arguments *)

Lemma given_spec (o : option string) :
  given o = true ↔ ∃ s, o = Some s ∧ s ≠ "".
Proof.
  unfold given. destruct o as [s|]; simpl.
  - destruct (String.eqb_spec s ""); simpl; split.
    + discriminate.
    + intros (s' & [= <-] & Hs). contradiction.
    + intros _. exists s. split; [reflexivity | assumption].
    + reflexivity.
  - split; [discriminate | intros (s & Hs & _); discriminate Hs].
Qed.

Lemma given_Some (s : string) : s ≠ "" → given (Some s) = true.
Proof. intros Hs. apply given_spec. exists s. split; [reflexivity | exact Hs]. Qed.

Lemma given_empty : given (Some "") = false.
Proof. reflexivity. Qed.

(** ** The record built by the synthesizer *)

Lemma generate_single_config_Ok env ws idx loc name cfg :
  generate_single_config env ws idx loc name = Ok cfg ↔
  ∃ v1 v2 v3,
    env !! "config_version" = Some v1 ∧
    env !! "server_url" = Some v2 ∧
    env !! "enrollment_api_key" = Some v3 ∧
    cfg = <["meta" := PDict (meta_of ws idx name)]>
            (base_config env ws idx loc v1 v2 v3).
Proof.
  unfold generate_single_config.
  rewrite bind_Ok. setoid_rewrite bind_Ok. setoid_rewrite bind_Ok.
  setoid_rewrite py_index_Ok.
  fold (base_config env ws idx loc).
  split.
  - intros (v1 & H1 & v2 & H2 & v3 & H3 & H). exists v1, v2, v3.
    repeat split; try assumption.
    injection H as <-. unfold meta_of, meta_set, base_config.
    destruct (given name), (given ws && bool_decide (is_Some idx));
      simplify_map_eq; rewrite ?insert_insert_eq; reflexivity.
  - intros (v1 & v2 & v3 & H1 & H2 & H3 & ->).
    exists v1. split; [assumption|]. exists v2. split; [assumption|].
    exists v3. split; [assumption|]. f_equal.
    unfold meta_of, meta_set, base_config.
    destruct (given name), (given ws && bool_decide (is_Some idx));
      simplify_map_eq; rewrite ?insert_insert_eq; reflexivity.
Qed.

Lemma default_features_flags (k : string) :
  default_features !! k =
    if bool_decide (k ∈ ["telemetry_enabled"; "streaming_enabled";
                         "ota_enabled"; "auto_register"])
    then Some (PBool true) else None.
Proof.
  unfold default_features. case_bool_decide as Hk.
  - repeat (apply elem_of_cons in Hk as [-> | Hk]; [by simplify_map_eq|]).
    by apply elem_of_nil in Hk.
  - rewrite !not_elem_of_cons in Hk. destruct Hk as (?&?&?&?&_).
    by simplify_map_eq.
Qed.

(** C1, as amended: when the environment document carries the three
    required entries, the synthesizer returns a record that copies them
    verbatim, takes the websocket path, environment name, polling interval
    and feature flags from the environment document where it has them and
    otherwise the defaults ['/ws/android'], ['production'], [86400] and the
    four flags (all true), and whose location is the location argument when
    it is supplied and non-empty, otherwise the environment document's
    default location, otherwise null. *)
Theorem generate_single_config_merge
    (env : gmap string pyval) (ws : option string) (idx : option Z)
    (loc : option string) (name : option string) (v1 v2 v3 : pyval) :
  env !! "config_version" = Some v1 →
  env !! "server_url" = Some v2 →
  env !! "enrollment_api_key" = Some v3 →
  ∃ cfg,
    generate_single_config env ws idx loc name = Ok cfg ∧
    cfg !! "config_version" = Some v1 ∧
    cfg !! "server_url" = Some v2 ∧
    cfg !! "enrollment_api_key" = Some v3 ∧
    cfg !! "ws_path" = Some (default (PStr "/ws/android") (env !! "ws_path")) ∧
    cfg !! "environment" =
      Some (default (PStr "production") (env !! "environment")) ∧
    cfg !! "config_poll_interval_seconds" =
      Some (default (PInt 86400) (env !! "config_poll_interval_seconds")) ∧
    cfg !! "features" =
      Some (default (PDict default_features) (env !! "features")) ∧
    (∀ k, default_features !! k =
            if bool_decide (k ∈ ["telemetry_enabled"; "streaming_enabled";
                                 "ota_enabled"; "auto_register"])
            then Some (PBool true) else None) ∧
    cfg !! "location" =
      Some (match loc with
            | Some l =>
                if bool_decide (l = "")
                then default PNone (env !! "location") else PStr l
            | None => default PNone (env !! "location")
            end).
Proof.
  intros H1 H2 H3. eexists. split.
  { apply generate_single_config_Ok. exists v1, v2, v3. done. }
  unfold base_config, py_get.
  repeat split; try by simplify_map_eq.
  - apply default_features_flags.
  - rewrite lookup_insert_ne by done. do 4 (rewrite lookup_insert_ne by done).
    rewrite lookup_insert_eq. f_equal. unfold py_or.
    destruct loc as [l|]; [|reflexivity].
    case_bool_decide as Hl.
    + subst l. reflexivity.
    + rewrite given_Some by assumption. reflexivity.
Qed.

Lemma generate_single_config_merge_witness :
  ∃ cfg,
    generate_single_config env_minimal None (Some 42) None None = Ok cfg ∧
    cfg !! "ws_path" = Some (PStr "/ws/android") ∧
    cfg !! "config_poll_interval_seconds" = Some (PInt 86400) ∧
    cfg !! "features" = Some (PDict default_features) ∧
    cfg !! "location" = Some PNone.
Proof.
  destruct (generate_single_config_merge env_minimal None (Some 42) None None
              (PInt 1) (PStr "https://dev.example.org")
              (PStr "sphr_dev_0123456789") eq_refl eq_refl eq_refl)
    as (cfg & Hcfg & _ & _ & _ & Hws & _ & Hpoll & Hfeat & _ & Hloc).
  exists cfg. repeat split; assumption.
Defined.

(** C1 fails as stated: a location argument that is supplied but empty
    does not reach the record; the environment document's location does. *)
Lemma generate_single_config_empty_location :
  ∃ cfg,
    generate_single_config env_full None None (Some "") None = Ok cfg ∧
    cfg !! "location" = Some (PStr "msk-office-1") ∧
    cfg !! "location" ≠ Some (PStr "").
Proof.
  eexists. split; [reflexivity|]. split; [reflexivity|]. discriminate.
Qed.

(** Without one of the three required entries there is no record: the
    lookup of the first missing one raises. *)
Lemma generate_single_config_KeyError env ws idx loc name :
  (env !! "config_version" = None →
   generate_single_config env ws idx loc name = Raise (KeyError "config_version")) ∧
  (is_Some (env !! "config_version") → env !! "server_url" = None →
   generate_single_config env ws idx loc name = Raise (KeyError "server_url")) ∧
  (is_Some (env !! "config_version") → is_Some (env !! "server_url") →
   env !! "enrollment_api_key" = None →
   generate_single_config env ws idx loc name
     = Raise (KeyError "enrollment_api_key")).
Proof.
  unfold generate_single_config, py_index. repeat split.
  - intros ->. reflexivity.
  - intros [v1 ->] ->. reflexivity.
  - intros [v1 ->] [v2 ->] ->. reflexivity.
Qed.

(** ** The synthesizer and the objects it is given *)

Lemma lookup_app_add {A} (l1 l2 : list A) (i : nat) :
  (l1 ++ l2) !! (length l1 + i)%nat = l2 !! i.
Proof.
  rewrite lookup_app_r by lia. f_equal. lia.
Qed.

Lemma setitem_in_meta (h : list obj) (f : obj) (md c : gmap string val)
    (k : string) (v : val) :
  c !! "meta" = Some (VRef (length h + 1)%nat) →
  setitem_in (h ++ [f; ODict md; ODict c]) (length h + 2)%nat "meta" k v
  = (Ok (), h ++ [f; ODict (<[k := v]> md); ODict c]).
Proof.
  intros Hmeta. unfold setitem_in.
  rewrite (lookup_app_add h _ 2). simpl. rewrite Hmeta.
  rewrite (lookup_app_add h _ 1). simpl.
  by rewrite (insert_app_r h _ 1).
Qed.

(** What the synthesizer returns and leaves in the store: three new objects
    after the ones that were there, the last of them the record. *)
Lemma generate_single_config_obj_Ok (h : list obj) (e : nat)
    (env : gmap string val) ws idx loc name (v1 v2 v3 : val) :
  h !! e = Some (ODict env) →
  env !! "config_version" = Some v1 →
  env !! "server_url" = Some v2 →
  env !! "enrollment_api_key" = Some v3 →
  generate_single_config_obj h e ws idx loc name
  = (Ok (length h + 2)%nat,
     h ++ [ODict default_features_obj;
           ODict (meta_obj ws idx name);
           ODict (record_obj env ws idx loc v1 v2 v3
                    (length h) (length h + 1))]).
Proof.
  intros He H1 H2 H3. unfold generate_single_config_obj, alloc.
  rewrite He, H1, H2, H3. cbv zeta.
  fold (record_obj env ws idx loc v1 v2 v3 (length h)
          (length (h ++ [ODict default_features_obj]))).
  rewrite !length_app. simpl (length [_]).
  rewrite <- !(assoc_L (++)). simpl (_ ++ _).
  replace (length h + 1 + 1)%nat with (length h + 2)%nat by lia.
  assert (record_obj env ws idx loc v1 v2 v3 (length h) (length h + 1) !! "meta"
          = Some (VRef (length h + 1)%nat)) as Hmeta
    by (unfold record_obj; by rewrite lookup_insert_eq).
  unfold meta_obj.
  destruct (given name), (given ws && bool_decide (is_Some idx));
    rewrite ?setitem_in_meta by exact Hmeta; cbv iota beta;
    rewrite ?setitem_in_meta by exact Hmeta; reflexivity.
Qed.

Lemma reify_same (n : nat) (h : list obj) (l1 l2 : nat) (o : obj) :
  h !! l1 = Some o → h !! l2 = Some o →
  reify n h (VRef l1) = reify n h (VRef l2).
Proof. intros H1 H2. destruct n; simpl; [reflexivity|]. by rewrite H1, H2. Qed.

(** C8: two calls of the synthesizer, one after the other, on the same
    environment document and the same device arguments each return a
    record; no object that existed before a call is changed or removed by
    it (the calls only add objects to the store); the two records are
    different objects that hold the same value, entry for entry and to any
    depth; and in both the [device_id] is null. *)
Theorem generate_single_config_deterministic
    (h : list obj) (e : nat) (env : gmap string val)
    (ws : option string) (idx : option Z) (loc name : option string) :
  h !! e = Some (ODict env) →
  is_Some (env !! "config_version") →
  is_Some (env !! "server_url") →
  is_Some (env !! "enrollment_api_key") →
  ∃ (c1 c2 : nat) (h1 h2 : list obj) (d1 d2 : gmap string val),
    generate_single_config_obj h e ws idx loc name = (Ok c1, h1) ∧
    generate_single_config_obj h1 e ws idx loc name = (Ok c2, h2) ∧
    h `prefix_of` h1 ∧ h1 `prefix_of` h2 ∧
    h !! c1 = None ∧ h1 !! c2 = None ∧
    h2 !! c1 = Some (ODict d1) ∧ h2 !! c2 = Some (ODict d2) ∧
    (∀ k, is_Some (d1 !! k) ↔ is_Some (d2 !! k)) ∧
    (∀ n k, reify n h2 <$> d1 !! k = reify n h2 <$> d2 !! k) ∧
    (∀ n, reify n h2 (VRef c1) = reify n h2 (VRef c2)) ∧
    d1 !! "device_id" = Some VNone ∧
    d2 !! "device_id" = Some VNone.
Proof.
  intros He [v1 H1] [v2 H2] [v3 H3].
  pose proof (generate_single_config_obj_Ok h e env ws idx loc name v1 v2 v3
                He H1 H2 H3) as Hcall1.
  set (h1 := h ++ [ODict default_features_obj; ODict (meta_obj ws idx name);
                   ODict (record_obj env ws idx loc v1 v2 v3
                            (length h) (length h + 1))]) in *.
  assert (h1 !! e = Some (ODict env)) as He1 by by apply lookup_app_l_Some.
  pose proof (generate_single_config_obj_Ok h1 e env ws idx loc name v1 v2 v3
                He1 H1 H2 H3) as Hcall2.
  set (h2 := h1 ++ [ODict default_features_obj; ODict (meta_obj ws idx name);
                    ODict (record_obj env ws idx loc v1 v2 v3
                             (length h1) (length h1 + 1))]) in *.
  set (d1 := record_obj env ws idx loc v1 v2 v3 (length h) (length h + 1)).
  set (d2 := record_obj env ws idx loc v1 v2 v3 (length h1) (length h1 + 1)).
  assert (∀ i, h2 !! (length h + i)%nat
               = [ODict default_features_obj; ODict (meta_obj ws idx name);
                  ODict d1] !! i ∨ (3 ≤ i)%nat) as Hold.
  { intros i. destruct (decide (i < 3)%nat) as [Hi|Hi]; [left | right; lia].
    unfold h2. rewrite lookup_app_l by (unfold h1; rewrite length_app; simpl; lia).
    unfold h1. apply lookup_app_add. }
  assert (∀ i, h2 !! (length h1 + i)%nat
               = [ODict default_features_obj; ODict (meta_obj ws idx name);
                  ODict d2] !! i) as Hnew
    by (intros i; unfold h2; apply lookup_app_add).
  assert (h2 !! (length h + 2)%nat = Some (ODict d1)) as Hd1
    by (destruct (Hold 2%nat) as [->|?]; [reflexivity | lia]).
  assert (h2 !! (length h1 + 2)%nat = Some (ODict d2)) as Hd2
    by (rewrite Hnew; reflexivity).
  assert (∀ n k, reify n h2 <$> d1 !! k = reify n h2 <$> d2 !! k) as Hfields.
  { intros n k. unfold d1, d2, record_obj.
    rewrite !lookup_insert.
    repeat (case_decide; [try reflexivity|]); [| |reflexivity].
    - simpl. f_equal. apply (reify_same n h2 _ _ (ODict (meta_obj ws idx name))).
      + destruct (Hold 1%nat) as [->|?]; [reflexivity | lia].
      + rewrite Hnew. reflexivity.
    - simpl. f_equal. destruct (env !! "features"); [reflexivity|]. simpl.
      apply (reify_same n h2 _ _ (ODict default_features_obj)).
      + rewrite <- (Nat.add_0_r (length h)).
        destruct (Hold 0%nat) as [->|?]; [reflexivity | lia].
      + rewrite <- (Nat.add_0_r (length h1)). rewrite Hnew. reflexivity. }
  exists (length h + 2)%nat, (length h1 + 2)%nat, h1, h2, d1, d2.
  split; [exact Hcall1|]. split; [exact Hcall2|].
  split; [by eexists|]. split; [by eexists|].
  split; [apply lookup_ge_None_2; lia|].
  split; [apply lookup_ge_None_2; lia|].
  split; [exact Hd1|]. split; [exact Hd2|].
  split; [|split; [exact Hfields|split; [|split]]].
  - intros k. rewrite <- !(fmap_is_Some (reify 0 h2)). by rewrite Hfields.
  - intros [|n]; simpl; [reflexivity|]. rewrite Hd1, Hd2. f_equal.
    apply map_eq. intros k. rewrite !lookup_fmap. apply Hfields.
  - unfold d1, record_obj. by simplify_map_eq.
  - unfold d2, record_obj. by simplify_map_eq.
Qed.

Lemma generate_single_config_deterministic_witness :
  ∃ (h1 h2 : list obj),
    generate_single_config_obj store_sample 1 (Some "ws-PC-FARM-01") (Some 42)
      (Some "fra-dc-2") (Some "Farm-042") = (Ok 4%nat, h1) ∧
    generate_single_config_obj h1 1 (Some "ws-PC-FARM-01") (Some 42)
      (Some "fra-dc-2") (Some "Farm-042") = (Ok 7%nat, h2) ∧
    store_sample `prefix_of` h1 ∧ h1 `prefix_of` h2 ∧
    (∀ n, reify n h2 (VRef 4) = reify n h2 (VRef 7)).
Proof.
  destruct (generate_single_config_deterministic store_sample 1
              (<["features" := VRef 0]>
               (<["enrollment_api_key" := VStr "sphr_dev_0123456789"]>
               (<["server_url" := VStr "https://dev.example.org"]>
               (<["config_version" := VInt 1]> ∅))))
              (Some "ws-PC-FARM-01") (Some 42) (Some "fra-dc-2")
              (Some "Farm-042"))
    as (c1 & c2 & h1 & h2 & d1 & d2 & Hc1 & Hc2 & Hp1 & Hp2 & _ & _ & _ & _
        & _ & _ & Hsame & _).
  - reflexivity.
  - by eexists.
  - by eexists.
  - by eexists.
  - assert (c1 = 4%nat ∧ h1 = (generate_single_config_obj store_sample 1
              (Some "ws-PC-FARM-01") (Some 42) (Some "fra-dc-2")
              (Some "Farm-042")).2) as [-> Hh1].
    { rewrite Hc1 in *. split; [|reflexivity].
      assert ((generate_single_config_obj store_sample 1
                 (Some "ws-PC-FARM-01") (Some 42) (Some "fra-dc-2")
                 (Some "Farm-042")).1 = Ok 4%nat) as Hfst by reflexivity.
      rewrite Hc1 in Hfst. simpl in Hfst. by injection Hfst. }
    assert (c2 = 7%nat) as ->.
    { assert ((generate_single_config_obj h1 1
                 (Some "ws-PC-FARM-01") (Some 42) (Some "fra-dc-2")
                 (Some "Farm-042")).1 = Ok 7%nat) as Hfst
        by (rewrite Hh1; reflexivity).
      rewrite Hc2 in Hfst. simpl in Hfst. by injection Hfst. }
    exists h1, h2. by repeat split.
Defined.

(** *** The store-level synthesizer computes the value-level one *)

Lemma reify_immediate (n : nat) (h : list obj) (v : val) :
  (∀ l, v ≠ VRef l) →
  reify n h v = match v with
                | VNone => PNone
                | VBool b => PBool b
                | VInt z => PInt z
                | VStr s => PStr s
                | VRef _ => PNone
                end.
Proof.
  intros Hv. destruct v; try (destruct n; reflexivity). by destruct (Hv l).
Qed.

Lemma reify_mono (n : nat) (h h' : list obj) (v : val) :
  h `prefix_of` h' → closed h → val_ok h v →
  reify n h' v = reify n h v.
Proof.
  intros [k ->] Hclosed. revert v.
  induction n as [|n IH]; intros v Hv; destruct v as [| | | |l]; simpl;
    try reflexivity.
  simpl in Hv. destruct (lookup_lt_is_Some_2 h l Hv) as [o Ho].
  rewrite (lookup_app_l_Some _ _ _ _ Ho), Ho.
  specialize (Hclosed l o Ho). destruct o as [d|vs]; f_equal.
  - apply map_fmap_ext. intros key v Hkey. apply IH. by apply (Hclosed key).
  - apply list_fmap_ext. intros i v Hi. apply IH, Hclosed.
    by apply list_elem_of_lookup_2 with i.
Qed.

Lemma reify_vof_str (n : nat) (h : list obj) (o : option string) :
  reify n h (vof_str o) = of_str o.
Proof. destruct o; destruct n; reflexivity. Qed.

Lemma reify_vof_int (n : nat) (h : list obj) (o : option Z) :
  reify n h (vof_int o) = of_int o.
Proof. destruct o; destruct n; reflexivity. Qed.

Lemma reify_meta_obj (n : nat) (h : list obj) ws idx name :
  reify n h <$> meta_obj ws idx name = meta_of ws idx name.
Proof.
  unfold meta_obj, meta_of.
  destruct (given name), (given ws && bool_decide (is_Some idx));
    rewrite ?fmap_insert, fmap_empty, ?reify_vof_str;
    repeat f_equal; by destruct n.
Qed.

Lemma reify_default_features (n : nat) (h : list obj) :
  reify n h <$> default_features_obj = default_features.
Proof.
  unfold default_features_obj, default_features.
  rewrite !fmap_insert, fmap_empty. repeat f_equal; by destruct n.
Qed.

(** Read as values, the store-level synthesizer and the value-level one
    agree: on an environment document they raise the same exception, or
    the new record in the store denotes the record [generate_single_config]
    returns. *)
Lemma generate_single_config_obj_refines (h : list obj) (e : nat)
    (env : gmap string val) ws idx loc name (n : nat) :
  closed h →
  h !! e = Some (ODict env) →
  match generate_single_config (reify (S n) h <$> env) ws idx loc name with
  | Ok cfg =>
      ∃ c h', generate_single_config_obj h e ws idx loc name = (Ok c, h') ∧
              reify (S (S n)) h' (VRef c) = PDict cfg
  | Raise ex => generate_single_config_obj h e ws idx loc name = (Raise ex, h)
  end.
Proof.
  intros Hclosed He.
  destruct (generate_single_config (reify (S n) h <$> env) ws idx loc name)
    as [cfg|ex] eqn:Hpure.
  - apply generate_single_config_Ok in Hpure
      as (p1 & p2 & p3 & H1 & H2 & H3 & ->).
    rewrite lookup_fmap in H1, H2, H3.
    destruct (env !! "config_version") as [v1|] eqn:E1; [|discriminate H1].
    destruct (env !! "server_url") as [v2|] eqn:E2; [|discriminate H2].
    destruct (env !! "enrollment_api_key") as [v3|] eqn:E3; [|discriminate H3].
    simpl in H1, H2, H3. injection H1 as <-. injection H2 as <-.
    injection H3 as <-.
    eexists _, _. split.
    { by apply (generate_single_config_obj_Ok h e env ws idx loc name v1 v2 v3). }
    set (h' := h ++ _).
    assert (h `prefix_of` h') as Hpre by by eexists.
    assert (∀ k v, env !! k = Some v → reify (S n) h' v = reify (S n) h v)
      as Hmono.
    { intros k v Hk. apply reify_mono; [exact Hpre | exact Hclosed |].
      by apply (Hclosed e (ODict env) He k). }
    assert (∀ k (dv : val) (dp : pyval),
              reify (S n) h' dv = dp →
              reify (S n) h' (default dv (env !! k))
              = py_get (reify (S n) h <$> env) k dp) as Hget.
    { intros k dv dp Hd. unfold py_get. rewrite lookup_fmap.
      destruct (env !! k) as [v|] eqn:Hk; simpl; [by apply (Hmono k) | exact Hd]. }
    change (reify (S (S n)) h' (VRef (length h + 2)))
      with (match h' !! (length h + 2)%nat with
            | Some (ODict d) => PDict (reify (S n) h' <$> d)
            | Some (OList vs) => PList (reify (S n) h' <$> vs)
            | None => PNone
            end).
    unfold h'. rewrite (lookup_app_add h _ 2). simpl (_ !! 2%nat). cbv iota.
    fold h'. f_equal. unfold record_obj, base_config.
    rewrite !fmap_insert, fmap_empty, insert_insert_eq.
    rewrite (Hmono _ _ E1), (Hmono _ _ E2), (Hmono _ _ E3).
    rewrite reify_vof_str, reify_vof_int.
    rewrite (Hget "ws_path" (VStr "/ws/android") (PStr "/ws/android") eq_refl).
    rewrite (Hget "environment" (VStr "production") (PStr "production")
               eq_refl).
    rewrite (Hget "config_poll_interval_seconds" (VInt 86400) (PInt 86400)
               eq_refl).
    rewrite (Hget "features" (VRef (length h)) (PDict default_features)).
    2:{ change (reify (S n) h' (VRef (length h)))
          with (match h' !! length h with
                | Some (ODict d) => PDict (reify n h' <$> d)
                | Some (OList vs) => PList (reify n h' <$> vs)
                | None => PNone
                end).
        unfold h'. rewrite <- (Nat.add_0_r (length h)) at 1.
        rewrite (lookup_app_add h _ 0). simpl. fold h'.
        by rewrite reify_default_features. }
    replace (reify (S n) h' (VRef (length h + 1)))
      with (PDict (meta_of ws idx name)).
    2:{ change (reify (S n) h' (VRef (length h + 1)))
          with (match h' !! (length h + 1)%nat with
                | Some (ODict d) => PDict (reify n h' <$> d)
                | Some (OList vs) => PList (reify n h' <$> vs)
                | None => PNone
                end).
        unfold h'. rewrite (lookup_app_add h _ 1). simpl. fold h'.
        by rewrite reify_meta_obj. }
    replace (reify (S n) h' (if given loc then vof_str loc
                             else default VNone (env !! "location")))
      with (py_or loc (py_get (reify (S n) h <$> env) "location" PNone)).
    2:{ unfold py_or. destruct (given loc).
        - by rewrite reify_vof_str.
        - symmetry. by apply Hget. }
    reflexivity.
  - unfold generate_single_config, py_index in Hpure.
    unfold generate_single_config_obj. rewrite He.
    rewrite !lookup_fmap in Hpure.
    destruct (env !! "config_version"); simpl in Hpure;
      [|by injection Hpure as <-].
    destruct (env !! "server_url"); simpl in Hpure;
      [|by injection Hpure as <-].
    destruct (env !! "enrollment_api_key"); simpl in Hpure;
      [discriminate Hpure | by injection Hpure as <-].
Qed.

(** ** The validator *)

(** The loop over the required fields appends, in order, one error for each
    missing or null field. *)
Lemma foldl_check_required config (fields : list string) (errors : list string) :
  foldl (check_required config) errors fields
  = errors ++ map required_error (List.filter (missing_or_null config) fields).
Proof.
  revert errors. induction fields as [|f fields IH]; intros errors; simpl.
  - by rewrite app_nil_r.
  - rewrite IH. unfold check_required.
    destruct (missing_or_null config f); simpl.
    + by rewrite <- app_assoc.
    + reflexivity.
Qed.

Lemma missing_or_null_false config (f : string) :
  missing_or_null config f = false ↔ ∃ v, config !! f = Some v ∧ v ≠ PNone.
Proof.
  unfold missing_or_null. destruct (config !! f) as [v|]; split.
  - destruct v; intros H; try discriminate H; eexists; (split; [reflexivity|discriminate]).
  - intros (v' & [= <-] & Hv). destruct v; try reflexivity. by destruct Hv.
  - discriminate.
  - intros (v & Hv & _). discriminate Hv.
Qed.

Lemma filter_missing_nil config (fields : list string) :
  List.filter (missing_or_null config) fields = [] ↔
  ∀ f, f ∈ fields → ∃ v, config !! f = Some v ∧ v ≠ PNone.
Proof.
  induction fields as [|f fields IH]; simpl.
  - split; [|done]. intros _ f Hf. by apply elem_of_nil in Hf.
  - destruct (missing_or_null config f) eqn:Hm; split.
    + discriminate.
    + intros H. destruct (H f) as [v Hv]; [left|].
      assert (missing_or_null config f = false) as Hf
        by (apply missing_or_null_false; by exists v).
      congruence.
    + intros Hnil g [-> | Hg]%elem_of_cons.
      * by apply missing_or_null_false.
      * by apply IH.
    + intros H. apply IH. intros g Hg. apply H. by right.
Qed.

(** What the validator returns, by the shape of the credential. *)
Lemma validate_config_cases (config : gmap string pyval) (schema : schema_doc) :
  validate_config config schema
  = match config !! "enrollment_api_key" with
    | Some (PStr s) =>
        Ok (map required_error
              (List.filter (missing_or_null config) (schema_required schema)) ++
            (if negb (String.eqb s "") && negb (String.prefix "sphr_" s)
             then [key_format_error s] else []))
    | Some v => if truthy v then Raise AttributeError
                else Ok (map required_error
                           (List.filter (missing_or_null config)
                              (schema_required schema)))
    | None => Ok (map required_error
                    (List.filter (missing_or_null config)
                       (schema_required schema)))
    end.
Proof.
  unfold validate_config, py_get.
  rewrite foldl_check_required. simpl ([] ++ _).
  destruct (config !! "enrollment_api_key") as [v|]; simpl.
  - destruct v as [|b|z|s|l|d]; simpl; try reflexivity.
    destruct (negb (String.eqb s "") && negb (String.prefix "sphr_" s));
      [reflexivity | by rewrite app_nil_r].
  - reflexivity.
Qed.

(** C2: the validator returns one error string for each field of the
    schema's [required] list that is absent from the record or null in it,
    in the order of the list and naming the field, followed by at most one
    credential-format error; the list is empty exactly when every listed
    field is present and non-null and the credential check passes.  (A
    credential that is neither a string nor falsy has no [startswith]: the
    call raises and returns no list.) *)
Theorem validate_config_errors (config : gmap string pyval) (schema : schema_doc) :
  let fields := match required schema with Some l => l | None => [] end in
  let missing :=
    List.filter (fun f => match config !! f with
                          | None | Some PNone => true
                          | Some _ => false
                          end) fields in
  let field_errors :=
    map (fun f => "Обязательное поле '" +:+ f +:+ "' отсутствует или null")
      missing in
  validate_config config schema
  = match config !! "enrollment_api_key" with
    | Some (PStr s) =>
        Ok (field_errors ++
            (if negb (String.eqb s "") && negb (String.prefix "sphr_" s)
             then ["enrollment_api_key должен начинаться с 'sphr_', получено: "
                     +:+ slice_to 10 s +:+ "..."]
             else []))
    | Some (PBool b) => if b then Raise AttributeError else Ok field_errors
    | Some (PInt z) => if z =? 0 then Ok field_errors else Raise AttributeError
    | Some (PList l) =>
        match l with [] => Ok field_errors | _ => Raise AttributeError end
    | Some (PDict d) =>
        if bool_decide (d = ∅) then Ok field_errors else Raise AttributeError
    | Some PNone | None => Ok field_errors
    end
  ∧ (validate_config config schema = Ok [] ↔
       (∀ f, f ∈ fields → ∃ v, config !! f = Some v ∧ v ≠ PNone) ∧
       match config !! "enrollment_api_key" with
       | Some (PStr s) => s = "" ∨ String.prefix "sphr_" s = true
       | Some (PBool b) => b = false
       | Some (PInt z) => z = 0
       | Some (PList l) => l = []
       | Some (PDict d) => d = ∅
       | Some PNone | None => True
       end).
Proof.
  intros fields missing field_errors.
  assert (validate_config config schema
          = match config !! "enrollment_api_key" with
            | Some (PStr s) =>
                Ok (field_errors ++
                    (if negb (String.eqb s "") && negb (String.prefix "sphr_" s)
                     then [key_format_error s] else []))
            | Some v => if truthy v then Raise AttributeError
                        else Ok field_errors
            | None => Ok field_errors
            end) as Hcases by apply validate_config_cases.
  assert (missing = [] ↔
          ∀ f, f ∈ fields → ∃ v, config !! f = Some v ∧ v ≠ PNone) as Hmissing
    by apply filter_missing_nil.
  assert (∀ tail : list string,
            Ok (field_errors ++ tail) = Ok [] ↔ missing = [] ∧ tail = [])
    as Hnil.
  { intros tail. split.
    - intros H%Ok_inj. apply app_eq_nil in H as [H ->].
      split; [|reflexivity]. subst field_errors. by destruct missing.
    - intros [Hm ->]. subst field_errors. by rewrite Hm. }
  specialize (Hnil []) as Hnil0. rewrite app_nil_r in Hnil0.
  rewrite Hcases, <- Hmissing. clear Hcases Hmissing.
  destruct (config !! "enrollment_api_key") as [[|b|z|s|l|d]|]; simpl.
  - split; [reflexivity|]. rewrite Hnil0. tauto.
  - split; [by destruct b|]. destruct b; simpl; [|rewrite Hnil0; tauto].
    split; [intros ?; discriminate | intros [_ ?]; discriminate].
  - destruct (Z.eqb_spec z 0) as [Hz|Hz]; simpl; (split; [reflexivity|]).
    + rewrite Hnil0. tauto.
    + split; [intros ?; discriminate | intros [_ ?]; contradiction].
  - split; [reflexivity|]. rewrite Hnil.
    destruct (String.eqb_spec s "") as [Hs|Hs],
      (String.prefix "sphr_" s); simpl.
    + tauto.
    + tauto.
    + tauto.
    + split; [intros [_ ?]; discriminate | intros [_ [?|?]]; done].
  - destruct l; simpl; (split; [reflexivity|]); [rewrite Hnil0; tauto|].
    split; [intros ?; discriminate | intros [_ ?]; discriminate].
  - case_bool_decide as Hd; simpl; (split; [reflexivity|]).
    + rewrite Hnil0. tauto.
    + split; [intros ?; discriminate | intros [_ ?]; contradiction].
  - split; [reflexivity|]. rewrite Hnil0. tauto.
Qed.

Lemma validate_config_errors_witness :
  validate_config record_bad_key schema_device
  = Ok ["Обязательное поле 'device_id' отсутствует или null";
        "Обязательное поле 'location' отсутствует или null";
        "enrollment_api_key должен начинаться с 'sphr_', получено: secret-key..."] ∧
  validate_config env_minimal schema_basic = Ok [] ∧
  validate_config env_minimal schema_device ≠ Ok [].
Proof.
  destruct (validate_config_errors record_bad_key schema_device) as [Hbad _].
  destruct (validate_config_errors env_minimal schema_basic) as [Hgood _].
  destruct (validate_config_errors env_minimal schema_device) as [_ Hiff].
  split; [exact Hbad|]. split; [exact Hgood|].
  intros Hnil. apply Hiff in Hnil as [Hall _].
  destruct (Hall "device_id") as (v & Hv & _); [|discriminate Hv].
  simpl. right. left.
Defined.

(** *** The preview [key[:10]] *)

Lemma slice_to_prefix (n : nat) (s : string) :
  String.prefix (slice_to n s) s = true.
Proof.
  revert n. induction s as [|c r IH]; intros n; simpl; [reflexivity|].
  destruct (is_continuation c); simpl.
  - destruct (Ascii.ascii_dec c c); [apply IH | congruence].
  - destruct n as [|n]; simpl; [reflexivity|].
    destruct (Ascii.ascii_dec c c); [apply IH | congruence].
Qed.

Lemma slice_to_code_points (n : nat) (s : string) :
  code_points (slice_to n s) = Nat.min n (code_points s).
Proof.
  revert n. induction s as [|c r IH]; intros n; simpl.
  - by rewrite Nat.min_0_r.
  - destruct (is_continuation c) eqn:Hc; simpl; rewrite ?Hc.
    + apply IH.
    + destruct n as [|n]; simpl; [reflexivity|]. rewrite Hc. by rewrite IH.
Qed.

Lemma code_points_le (s : string) : (code_points s ≤ String.length s)%nat.
Proof.
  induction s as [|c r IH]; simpl; [lia|].
  destruct (is_continuation c); lia.
Qed.

(** On a string without multi-byte characters the slice is the first [n]
    bytes. *)
Lemma slice_to_ascii (n : nat) (s : string) :
  code_points s = String.length s →
  slice_to n s = String.substring 0 n s.
Proof.
  revert n. induction s as [|c r IH]; intros n; simpl.
  - intros _. by destruct n.
  - pose proof (code_points_le r).
    destruct (is_continuation c); [lia|]. intros [= Hr].
    destruct n as [|n]; [reflexivity|]. by rewrite IH.
Qed.

(** *** The credential check *)

Lemma required_error_not_format (f : string) : ¬ format_error (required_error f).
Proof. intros [key Hkey]. discriminate Hkey. Qed.

Lemma required_errors_not_format (fields : list string) :
  Forall (fun e => ¬ format_error e) (map required_error fields).
Proof.
  apply Forall_forall. intros e (f & -> & _)%list_elem_of_fmap.
  apply required_error_not_format.
Qed.

(** C3: whatever the schema holds, a credential string that is non-empty
    and does not start with [sphr_] makes the validator return exactly one
    credential-format error, the last of the list, which carries the field
    name and the first 10 characters of the value; a credential string
    that starts with [sphr_] gives a list without any such error. *)
Theorem validate_config_key_format
    (config : gmap string pyval) (schema : schema_doc) (s : string) :
  config !! "enrollment_api_key" = Some (PStr s) →
  ∃ errs : list string,
    Forall (fun e => ¬ format_error e) errs ∧
    (s ≠ "" → String.prefix "sphr_" s = false →
     validate_config config schema
     = Ok (errs ++
           ["enrollment_api_key должен начинаться с 'sphr_', получено: "
              +:+ slice_to 10 s +:+ "..."])) ∧
    (String.prefix "sphr_" s = true → validate_config config schema = Ok errs).
Proof.
  intros Hkey.
  exists (map required_error
            (List.filter (missing_or_null config) (schema_required schema))).
  rewrite validate_config_cases, Hkey.
  split; [apply required_errors_not_format|]. split.
  - intros Hs Hp. rewrite Hp.
    destruct (String.eqb_spec s ""); [contradiction|]. reflexivity.
  - intros Hp. rewrite Hp, andb_false_r. by rewrite app_nil_r.
Qed.

Lemma validate_config_key_format_witness :
  ∃ errs : list string,
    Forall (fun e => ¬ format_error e) errs ∧
    validate_config record_bad_key schema_device
    = Ok (errs ++
          ["enrollment_api_key должен начинаться с 'sphr_', получено: secret-key..."]).
Proof.
  destruct (validate_config_key_format record_bad_key schema_device
              "secret-key-0123456789")
    as (errs & Hnone & Hbad & _); [reflexivity|].
  exists errs. split; [exact Hnone|].
  apply Hbad; [discriminate | reflexivity].
Defined.

(** ** The format [03d] *)

Lemma string_of_uint_inj (d d' : Decimal.uint) :
  NilEmpty.string_of_uint d = NilEmpty.string_of_uint d' → d = d'.
Proof.
  intros H. pose proof (NilEmpty.usu d) as Hd.
  rewrite H, NilEmpty.usu in Hd. congruence.
Qed.

Lemma string_of_uint_no_sign (d : Decimal.uint) (s : string) :
  NilEmpty.string_of_uint d ≠ String "-" s.
Proof. destruct d; simpl; discriminate. Qed.

Lemma of_uint_zfill (w : nat) (d : Decimal.uint) :
  Z.of_uint (zfill w d) = Z.of_uint d.
Proof.
  unfold zfill. induction (w - Decimal.nb_digits d)%nat as [|n IH]; simpl.
  - reflexivity.
  - exact IH.
Qed.

(** Distinct integers have distinct formats. *)
Lemma fmt03d_inj (z z' : Z) : fmt03d z = fmt03d z' → z = z'.
Proof.
  unfold fmt03d. intros H.
  rewrite <- (DecimalZ.of_to z), <- (DecimalZ.of_to z').
  destruct (Z.to_int z) as [d|d], (Z.to_int z') as [d'|d']; simpl.
  - apply string_of_uint_inj in H.
    by rewrite <- (of_uint_zfill 3 d), H, of_uint_zfill.
  - by apply string_of_uint_no_sign in H.
  - symmetry in H. by apply string_of_uint_no_sign in H.
  - injection H as H. apply string_of_uint_inj in H.
    by rewrite <- (of_uint_zfill 2 d), H, of_uint_zfill.
Qed.

(** On an index between 0 and 999 the format is the three decimal digits. *)
Lemma fmt03d_three_digits (z : Z) :
  0 ≤ z < 1000 →
  fmt03d z
  = String (digit (z / 100))
      (String (digit (z / 10 mod 10)) (String (digit (z mod 10)) "")).
Proof.
  intros Hz.
  assert (forallb
            (fun z => String.eqb (fmt03d z)
               (String (digit (z / 100))
                  (String (digit (z / 10 mod 10))
                     (String (digit (z mod 10)) ""))))
            (seqZ 0 1000) = true) as Hall by (vm_compute; reflexivity).
  rewrite forallb_forall in Hall.
  apply String.eqb_eq, Hall, list_elem_of_In, elem_of_seqZ. lia.
Qed.

(** Beyond the width nothing is filled: the format is the plain numeral. *)
Lemma fmt03d_wide (z : Z) (d : Decimal.uint) :
  Z.to_int z = Decimal.Pos d →
  (3 ≤ Decimal.nb_digits d)%nat →
  fmt03d z = NilEmpty.string_of_uint d.
Proof.
  intros Hd Hw. unfold fmt03d, zfill. rewrite Hd.
  replace (3 - Decimal.nb_digits d)%nat with 0%nat by lia.
  reflexivity.
Qed.

Lemma length_append (a b : string) :
  String.length (a +:+ b) = (String.length a + String.length b)%nat.
Proof. induction a as [|c a IH]; simpl; [reflexivity | by rewrite IH]. Qed.

Lemma append_inv_tail (a b s : string) : a +:+ s = b +:+ s → a = b.
Proof.
  revert b. induction a as [|c a IH]; intros b H.
  - destruct b as [|c' b]; [reflexivity|].
    apply (f_equal String.length) in H.
    rewrite !length_append in H. simpl in H. lia.
  - destruct b as [|c' b].
    + apply (f_equal String.length) in H.
      rewrite !length_append in H. simpl in H. lia.
    + simpl in H. injection H as -> H. f_equal. by apply IH.
Qed.

(** ** The batch driver: identity of a unit *)

Lemma unit_config_Ok a env i cfg :
  unit_config a env i = Ok cfg ↔
  ∃ name, unit_name a i = Ok name ∧
    generate_single_config env (workstation_id a) (unit_idx a i) (location a) name
    = Ok cfg.
Proof. unfold unit_config. apply bind_Ok. Qed.

Lemma unit_config_instance_index a env i cfg :
  unit_config a env i = Ok cfg →
  cfg !! "instance_index" = Some (of_int (unit_idx a i)).
Proof.
  intros (name & _ & H)%unit_config_Ok.
  apply generate_single_config_Ok in H as (v1 & v2 & v3 & _ & _ & _ & ->).
  unfold base_config. by simplify_map_eq.
Qed.

(** C4, as amended: with a workstation identifier that is supplied and
    non-empty, the unit at loop offset [i] has instance index
    [start_index + i]; with none, or an empty one, every unit has the
    explicit instance-index parameter unchanged.  The record of the unit
    carries that index. *)
Theorem unit_idx_derivation (a : args) (i : Z) :
  unit_idx a i
  = match workstation_id a with
    | Some ws => if bool_decide (ws = "") then instance_index a
                 else Some (start_index a + i)
    | None => instance_index a
    end
  ∧ ∀ env cfg, unit_config a env i = Ok cfg →
               cfg !! "instance_index" = Some (of_int (unit_idx a i)).
Proof.
  split; [|intros env cfg; apply unit_config_instance_index].
  unfold unit_idx. destruct (workstation_id a) as [ws|]; [|reflexivity].
  case_bool_decide as Hws.
  - subst ws. reflexivity.
  - by rewrite given_Some.
Qed.

Example unit_idx_5_6_7 :
  map (unit_idx (farm 3 5)) (range 3) = [Some 5; Some 6; Some 7].
Proof. reflexivity. Qed.

Example unit_idx_9_9_9 :
  map (unit_idx (single (Some 9) 3)) (range 3) = [Some 9; Some 9; Some 9].
Proof. reflexivity. Qed.

(** C4 fails as stated: a workstation identifier that is supplied but empty
    does not start the sequential numbering. *)
Lemma unit_idx_empty_workstation :
  workstation_id args_empty_workstation = Some "" ∧
  map (unit_idx args_empty_workstation) (range 3) = [None; None; None] ∧
  unit_idx args_empty_workstation 0
    ≠ Some (start_index args_empty_workstation + 0).
Proof. split; [reflexivity|]. split; [reflexivity | discriminate]. Qed.

(** ** The batch driver: display names *)

Lemma given_farm (s : string) : given (Some ("Farm-" +:+ s)) = true.
Proof. apply given_Some. discriminate. Qed.

(** C7, as amended: when [count > 1] and no display name is given, a unit
    with instance index [z] gets the display name ['Farm-'] followed by [z]
    in the format [03d] (three digits from 0 to 999), stored in the record's
    metadata; a unit without an index gets none, the format raises.  With a
    non-empty workstation identifier and start index 0, units 0 and 1 get
    ['Farm-000'] and ['Farm-001']. *)
Theorem unit_name_farm (a : args) (i : Z) :
  count a > 1 →
  given (ldplayer_name a) = false →
  unit_name a i
  = match unit_idx a i with
    | Some z => Ok (Some ("Farm-" +:+ fmt03d z))
    | None => Raise TypeError
    end
  ∧ (∀ env cfg z,
       unit_idx a i = Some z → unit_config a env i = Ok cfg →
       ∃ meta, cfg !! "meta" = Some (PDict meta) ∧
               meta !! "ldplayer_name" = Some (PStr ("Farm-" +:+ fmt03d z)))
  ∧ (∀ z, 0 ≤ z < 1000 →
          fmt03d z = String (digit (z / 100))
                       (String (digit (z / 10 mod 10))
                          (String (digit (z mod 10)) "")))
  ∧ (given (workstation_id a) = true → start_index a = 0 →
     unit_name a 0 = Ok (Some "Farm-000") ∧
     unit_name a 1 = Ok (Some "Farm-001")).
Proof.
  intros Hcount Hname.
  assert (∀ j, unit_name a j
               = match unit_idx a j with
                 | Some z => Ok (Some ("Farm-" +:+ fmt03d z))
                 | None => Raise TypeError
                 end) as Hunit.
  { intros j. unfold unit_name. rewrite Hname.
    replace (count a >? 1) with true by (symmetry; apply Z.gtb_lt; lia).
    by destruct (unit_idx a j). }
  split; [apply Hunit|]. split; [|split].
  - intros env cfg z Hz (name & Hn & Hcfg)%unit_config_Ok.
    rewrite Hunit, Hz in Hn. injection Hn as <-.
    apply generate_single_config_Ok in Hcfg as (v1 & v2 & v3 & _ & _ & _ & ->).
    eexists. split; [by rewrite lookup_insert_eq|].
    unfold meta_of. rewrite given_farm. simpl.
    destruct (_ && _); by simplify_map_eq.
  - intros z Hz. by apply fmt03d_three_digits.
  - intros Hws Hstart. rewrite !Hunit. unfold unit_idx.
    rewrite Hws, Hstart. split; reflexivity.
Qed.

Lemma unit_name_farm_witness :
  unit_name (farm 2 0) 0 = Ok (Some "Farm-000") ∧
  unit_name (farm 2 0) 1 = Ok (Some "Farm-001").
Proof.
  destruct (unit_name_farm (farm 2 0) 0) as (_ & _ & _ & H).
  - reflexivity.
  - reflexivity.
  - apply H; reflexivity.
Defined.

(** C7 fails as stated: with [count = 2], no display name and nothing else
    on the command line there is no instance index to format, and with a
    start index other than 0 the names do not begin at ['Farm-000']. *)
Lemma unit_name_not_farm_000 :
  unit_name (single None 2) 0 = Raise TypeError ∧
  unit_name (farm 2 5) 0 = Ok (Some "Farm-005") ∧
  unit_name (farm 2 5) 1 = Ok (Some "Farm-006").
Proof. repeat split. Qed.

(** ** The batch driver: file names *)

Lemma unit_filename_batch a i :
  count a ≠ 1 →
  unit_filename a i
  = match unit_idx a i with
    | Some z => Ok ("sphere-agent-config-" +:+ fmt03d z +:+ ".json")
    | None => Raise TypeError
    end.
Proof.
  intros Hcount. unfold unit_filename.
  replace (count a =? 1) with false by (symmetry; apply Z.eqb_neq; lia).
  by destruct (unit_idx a i).
Qed.

Lemma batch_filename_inj (z z' : Z) :
  "sphere-agent-config-" +:+ fmt03d z +:+ ".json"
  = "sphere-agent-config-" +:+ fmt03d z' +:+ ".json" →
  z = z'.
Proof.
  intros H. apply (inj (String.app "sphere-agent-config-")) in H.
  apply append_inv_tail in H. by apply fmt03d_inj.
Qed.

(** C6, as amended: when one unit is requested the file name is the
    override name if one is given and non-empty, otherwise
    ['sphere-agent-config.json']; in a batch the file name of a unit with
    instance index [z] is the default stem, a dash, [z] in the format [03d]
    and ['.json'].  With a non-empty workstation identifier the names of
    different units differ; without one every unit has the same name. *)
Theorem unit_filename_naming (a : args) (i : Z) :
  (count a = 1 →
   unit_filename a i
   = Ok (match output_file a with
         | Some f => if bool_decide (f = "") then "sphere-agent-config.json"
                     else f
         | None => "sphere-agent-config.json"
         end)) ∧
  (count a ≠ 1 →
   unit_filename a i
   = match unit_idx a i with
     | Some z => Ok ("sphere-agent-config-" +:+ fmt03d z +:+ ".json")
     | None => Raise TypeError
     end) ∧
  (count a ≠ 1 → given (workstation_id a) = true →
   ∀ j, unit_filename a i = unit_filename a j → i = j) ∧
  (given (workstation_id a) = false →
   ∀ j, unit_filename a i = unit_filename a j).
Proof.
  repeat split.
  - intros Hcount. unfold unit_filename. rewrite Hcount. simpl. f_equal.
    destruct (output_file a) as [f|]; [|reflexivity].
    case_bool_decide as Hf.
    + subst f. reflexivity.
    + by rewrite given_Some.
  - apply unit_filename_batch.
  - intros Hcount Hws j. rewrite !unit_filename_batch by assumption.
    unfold unit_idx. rewrite Hws. intros H%Ok_inj.
    apply batch_filename_inj in H. lia.
  - intros Hws j. unfold unit_filename, unit_idx. by rewrite Hws.
Qed.

Lemma unit_filename_naming_witness :
  unit_filename (farm 1 0) 0 = Ok "sphere-agent-config.json" ∧
  map (unit_filename (farm 3 0)) (range 3)
  = [Ok "sphere-agent-config-000.json"; Ok "sphere-agent-config-001.json";
     Ok "sphere-agent-config-002.json"] ∧
  (∀ j, unit_filename (farm 3 0) 1 = unit_filename (farm 3 0) j → 1 = j).
Proof.
  destruct (unit_filename_naming (farm 1 0) 0) as (H1 & _).
  destruct (unit_filename_naming (farm 3 0) 1) as (_ & _ & Hinj & _).
  split; [apply H1; reflexivity|]. split; [reflexivity|].
  apply Hinj; [discriminate | reflexivity].
Defined.

(** C6 fails as stated: without a workstation identifier the units of a
    batch share one instance index and so one file name; the run reports two
    records generated and leaves a single file. *)
Lemma unit_filename_collision :
  unit_filename (single (Some 9) 2) 0 = Ok "sphere-agent-config-009.json" ∧
  unit_filename (single (Some 9) 2) 1 = Ok "sphere-agent-config-009.json" ∧
  (main (single (Some 9) 2) env_minimal schema_basic ∅).1 = Finished 2 ∧
  size (main (single (Some 9) 2) env_minimal schema_basic ∅).2 = 1%nat.
Proof. repeat split; vm_compute; reflexivity. Qed.

(** ** The batch loop *)

Section run_loop.
Variable body : Z → unit_outcome.

Lemma run_loop_writes (pre rest : list Z) (generated : Z) (fs : files) :
  (∀ j, j ∈ pre → is_write (body j)) →
  run_loop body (pre ++ rest) generated fs
  = run_loop body rest (generated + Z.of_nat (length pre))
      (written body pre fs).
Proof.
  revert generated fs.
  induction pre as [|j pre IH]; intros generated fs Hpre; simpl.
  - f_equal. lia.
  - destruct (Hpre j) as (f & c & Hj); [left|]. rewrite Hj.
    rewrite IH by (intros j' Hj'; apply Hpre; by right).
    f_equal. lia.
Qed.

(** The loop stops at the first unit that fails validation and keeps what
    the units before it wrote. *)
Lemma run_loop_invalid (pre rest : list Z) (k : Z) (errors : list string)
    (generated : Z) (fs : files) :
  (∀ j, j ∈ pre → is_write (body j)) →
  body k = UnitInvalid errors →
  run_loop body (pre ++ k :: rest) generated fs
  = (ValidationExit k errors, written body pre fs).
Proof.
  intros Hpre Hk. rewrite run_loop_writes by assumption.
  simpl. by rewrite Hk.
Qed.

Lemma run_loop_raise (pre rest : list Z) (k : Z) (e : exn)
    (generated : Z) (fs : files) :
  (∀ j, j ∈ pre → is_write (body j)) →
  body k = UnitRaise e →
  run_loop body (pre ++ k :: rest) generated fs
  = (Uncaught e, written body pre fs).
Proof.
  intros Hpre Hk. rewrite run_loop_writes by assumption.
  simpl. by rewrite Hk.
Qed.

(** A file name that none of the units writes keeps its content. *)
Lemma written_lookup_other (units : list Z) (fs : files) (name : string) :
  (∀ j c, j ∈ units → body j ≠ UnitWrite name c) →
  written body units fs !! name = fs !! name.
Proof.
  revert fs. induction units as [|j units IH]; intros fs Hno; simpl.
  - reflexivity.
  - unfold written in *. simpl. rewrite IH.
    + destruct (body j) as [e|errs|f c] eqn:Hj; try reflexivity.
      apply lookup_insert_ne. intros ->.
      assert (j ∈ j :: units) as Hin by left.
      exact (Hno j c Hin Hj).
    + intros j' c Hj'. apply Hno. by right.
Qed.
End run_loop.

Lemma range_split (n k : Z) :
  0 ≤ k < n → range n = range k ++ k :: seqZ (k + 1) (n - k - 1).
Proof.
  intros Hk. unfold range.
  replace n with (k + (n - k)) at 1 by lia.
  rewrite seqZ_app by lia. f_equal. simpl.
  rewrite seqZ_cons by lia. f_equal.
Qed.

Lemma elem_of_range (n j : Z) : j ∈ range n ↔ 0 ≤ j < n.
Proof. unfold range. rewrite elem_of_seqZ. lia. Qed.

Lemma loop_body_invalid a env schema i errs :
  loop_body a env schema i = UnitInvalid errs ↔
  errs ≠ [] ∧
  ∃ cfg, unit_config a env i = Ok cfg ∧ validate_config cfg schema = Ok errs.
Proof.
  unfold loop_body. split.
  - destruct (unit_config a env i) as [cfg|e]; [|discriminate].
    destruct (validate_config cfg schema) as [[|err errs']|e] eqn:Hv;
      try discriminate.
    + destruct (unit_filename a i); discriminate.
    + intros [= <-]. split; [discriminate|]. by exists cfg.
  - intros (Herrs & cfg & -> & ->). by destruct errs.
Qed.

(** C5: when unit [k] is the first to fail validation, the run ends in
    [sys.exit(1)] after reporting the errors the validator returned for
    that unit; the directory then holds what the units before [k] wrote on
    top of its earlier content, nothing of unit [k] or a later one, and no
    file an earlier unit did not write is touched. *)
Theorem main_validation_failure
    (a : args) (env : gmap string pyval) (schema : schema_doc) (fs : files)
    (k : Z) (errs : list string) :
  0 ≤ k < count a →
  (∀ j, 0 ≤ j < k → is_write (loop_body a env schema j)) →
  loop_body a env schema k = UnitInvalid errs →
  (main a env schema fs).1 = ValidationExit k errs ∧
  exit_status (main a env schema fs).1 = 1 ∧
  errs ≠ [] ∧
  (∃ cfg, unit_config a env k = Ok cfg ∧ validate_config cfg schema = Ok errs) ∧
  (main a env schema fs).2 = written (loop_body a env schema) (range k) fs ∧
  (∀ name, (∀ j c, 0 ≤ j < k → loop_body a env schema j ≠ UnitWrite name c) →
           (main a env schema fs).2 !! name = fs !! name).
Proof.
  intros Hk Hpre Hinv. unfold main.
  rewrite (range_split (count a) k) by assumption.
  rewrite (run_loop_invalid _ _ _ k errs) by
    (try assumption; intros j Hj%elem_of_range; by apply Hpre).
  simpl. apply loop_body_invalid in Hinv as [Herrs Hcfg].
  repeat split; try assumption.
  intros name Hname. apply written_lookup_other.
  intros j c Hj%elem_of_range. by apply Hname.
Qed.

Lemma main_validation_failure_witness :
  (main (farm 3 5) env_bad_key schema_basic ∅).1
  = ValidationExit 0
      ["enrollment_api_key должен начинаться с 'sphr_', получено: secret-key..."] ∧
  (main (farm 3 5) env_bad_key schema_basic ∅).2 = ∅.
Proof.
  destruct (main_validation_failure (farm 3 5) env_bad_key schema_basic ∅ 0
    ["enrollment_api_key должен начинаться с 'sphr_', получено: secret-key..."])
    as (Hexit & _ & _ & _ & Hfs & _).
  - simpl. lia.
  - intros j Hj. lia.
  - reflexivity.
  - split; [exact Hexit | exact Hfs].
Defined.

(** The loop itself does not undo anything: with a body whose unit 1 fails
    after unit 0 was written, the file of unit 0 stays. *)
Example run_loop_keeps_earlier_files :
  run_loop (fun i => if i =? 1 then UnitInvalid ["e"]
                     else UnitWrite ("f" +:+ fmt03d i) ∅)
    (range 3) 0 ∅
  = (ValidationExit 1 ["e"], {["f000" := ∅]}).
Proof. reflexivity. Qed.

(** ** All units of a batch validate alike *)

Lemma missing_or_null_record env ws idx idx' loc v1 v2 v3
    (m m' : gmap string pyval) (f : string) :
  (idx = None ↔ idx' = None) →
  missing_or_null (<["meta" := PDict m]> (base_config env ws idx loc v1 v2 v3)) f
  = missing_or_null
      (<["meta" := PDict m']> (base_config env ws idx' loc v1 v2 v3)) f.
Proof.
  intros Hidx. unfold missing_or_null, base_config.
  rewrite !lookup_insert.
  repeat (case_decide; [try reflexivity|]); try reflexivity.
  destruct idx as [z|], idx' as [z'|]; simpl; try reflexivity.
  - destruct Hidx as [_ Hidx]. by specialize (Hidx eq_refl).
  - destruct Hidx as [Hidx _]. by specialize (Hidx eq_refl).
Qed.

Lemma validate_config_record env ws idx idx' loc v1 v2 v3
    (m m' : gmap string pyval) (schema : schema_doc) :
  (idx = None ↔ idx' = None) →
  validate_config (<["meta" := PDict m]> (base_config env ws idx loc v1 v2 v3))
    schema
  = validate_config
      (<["meta" := PDict m']> (base_config env ws idx' loc v1 v2 v3)) schema.
Proof.
  intros Hidx.
  rewrite !validate_config_cases.
  rewrite (List.filter_ext _ _ (fun f =>
             missing_or_null_record env ws idx idx' loc v1 v2 v3 m m' f Hidx)).
  unfold base_config. by simplify_map_eq.
Qed.

Lemma generate_single_config_Raise env ws idx loc name e :
  generate_single_config env ws idx loc name = Raise e →
  ∀ ws' idx' loc' name',
    generate_single_config env ws' idx' loc' name' = Raise e.
Proof.
  unfold generate_single_config, py_index. intros H ws' idx' loc' name'.
  destruct (env !! "config_version"); simpl in *; [|exact H].
  destruct (env !! "server_url"); simpl in *; [|exact H].
  destruct (env !! "enrollment_api_key"); simpl in *; [|exact H].
  discriminate H.
Qed.

Lemma unit_idx_None a i j : unit_idx a i = None ↔ unit_idx a j = None.
Proof. unfold unit_idx. destruct (given (workstation_id a)); split; congruence. Qed.

Lemma unit_name_uniform a i j :
  match unit_name a i with
  | Raise e => unit_name a j = Raise e
  | Ok _ => ∃ name, unit_name a j = Ok name
  end.
Proof.
  unfold unit_name, unit_idx.
  destruct (count a >? 1), (given (ldplayer_name a)),
    (given (workstation_id a)), (instance_index a); simpl; eauto.
Qed.

Lemma unit_filename_uniform a i j :
  match unit_filename a i with
  | Raise e => unit_filename a j = Raise e
  | Ok _ => ∃ filename, unit_filename a j = Ok filename
  end.
Proof.
  unfold unit_filename, unit_idx.
  destruct (count a =? 1), (given (workstation_id a)), (instance_index a);
    simpl; eauto.
Qed.

Lemma unit_config_uniform a env i j :
  match unit_config a env i with
  | Raise e => unit_config a env j = Raise e
  | Ok cfg =>
      ∃ cfg', unit_config a env j = Ok cfg' ∧
              ∀ schema, validate_config cfg schema = validate_config cfg' schema
  end.
Proof.
  unfold unit_config. pose proof (unit_name_uniform a i j) as Hn.
  destruct (unit_name a i) as [n|e]; simpl.
  - destruct Hn as [n' ->]. simpl.
    destruct (generate_single_config env (workstation_id a) (unit_idx a i)
                (location a) n) as [cfg|e] eqn:Hg.
    + apply generate_single_config_Ok in Hg as (v1 & v2 & v3 & H1 & H2 & H3 & ->).
      eexists. split.
      { apply generate_single_config_Ok. exists v1, v2, v3. done. }
      intros schema. apply validate_config_record, unit_idx_None.
    + by apply (generate_single_config_Raise _ _ _ _ _ _ Hg).
  - by rewrite Hn.
Qed.

Lemma unit_validation_uniform a env schema i j :
  unit_validation a env schema i = unit_validation a env schema j.
Proof.
  unfold unit_validation. pose proof (unit_config_uniform a env i j) as H.
  destruct (unit_config a env i) as [cfg|e]; simpl.
  - destruct H as (cfg' & -> & Hv). simpl. apply Hv.
  - by rewrite H.
Qed.

Lemma loop_body_uniform a env schema i j :
  match loop_body a env schema i with
  | UnitWrite _ _ => is_write (loop_body a env schema j)
  | o => loop_body a env schema j = o
  end.
Proof.
  unfold loop_body. pose proof (unit_config_uniform a env i j) as Hc.
  pose proof (unit_filename_uniform a i j) as Hf.
  destruct (unit_config a env i) as [cfg|e].
  - destruct Hc as (cfg' & -> & Hv). rewrite <- Hv.
    destruct (validate_config cfg schema) as [[|err errs]|e]; try reflexivity.
    destruct (unit_filename a i) as [f|e].
    + destruct Hf as [f' ->]. by exists f', cfg'.
    + by rewrite Hf.
  - by rewrite Hc.
Qed.

(** A run that does not finish stops in unit 0 and leaves the directory as
    it found it. *)
Lemma main_failure a env schema fs :
  exit_status (main a env schema fs).1 ≠ 0 →
  (main a env schema fs).2 = fs ∧
  match loop_body a env schema 0 with
  | UnitRaise e => (main a env schema fs).1 = Uncaught e
  | UnitInvalid errors => (main a env schema fs).1 = ValidationExit 0 errors
  | UnitWrite _ _ => False
  end.
Proof.
  unfold main. destruct (decide (count a ≤ 0)) as [Hn|Hn].
  { unfold range. rewrite seqZ_nil by assumption. simpl. done. }
  pose proof (fun j => loop_body_uniform a env schema 0 j) as Hu.
  destruct (loop_body a env schema 0) as [e|errs|f c] eqn:H0.
  - unfold range. rewrite seqZ_cons by lia. simpl. rewrite H0. done.
  - unfold range. rewrite seqZ_cons by lia. simpl. rewrite H0. done.
  - rewrite <- (app_nil_r (range (count a))).
    rewrite run_loop_writes by (intros j _; apply Hu). simpl. done.
Qed.

(** C10: the validator's verdict is the same for every unit of a run, so a
    run that ends in a validation failure detects it at unit 0 and has
    written no file; the same holds for a run ended by an exception. *)
Theorem batch_validation_uniform
    (a : args) (env : gmap string pyval) (schema : schema_doc) :
  (∀ i j, unit_validation a env schema i = unit_validation a env schema j) ∧
  (∀ fs, exit_status (main a env schema fs).1 ≠ 0 →
         (main a env schema fs).2 = fs) ∧
  (∀ fs k errs, (main a env schema fs).1 = ValidationExit k errs →
                k = 0 ∧ (main a env schema fs).2 = fs ∧
                unit_validation a env schema 0 = Ok errs).
Proof.
  split; [apply unit_validation_uniform|]. split.
  - intros fs H. by apply main_failure.
  - intros fs k errs Hexit.
    destruct (main_failure a env schema fs) as [Hfs H0].
    { rewrite Hexit. discriminate. }
    destruct (loop_body a env schema 0) as [e|errs0|f c] eqn:Hbody;
      [congruence| |contradiction].
    rewrite Hexit in H0. injection H0 as -> ->.
    repeat split; [assumption|].
    apply loop_body_invalid in Hbody as (_ & cfg & Hcfg & Hv).
    unfold unit_validation. by rewrite Hcfg.
Qed.

Lemma batch_validation_uniform_witness :
  (main (farm 3 5) env_bad_key schema_device ∅).2 = ∅ ∧
  unit_validation (farm 3 5) env_bad_key schema_device 2
  = Ok ["Обязательное поле 'device_id' отсутствует или null";
        "enrollment_api_key должен начинаться с 'sphr_', получено: secret-key..."].
Proof.
  destruct (batch_validation_uniform (farm 3 5) env_bad_key schema_device)
    as (Hsame & _ & Hfirst).
  destruct (Hfirst ∅ 0
    ["Обязательное поле 'device_id' отсутствует или null";
     "enrollment_api_key должен начинаться с 'sphr_', получено: secret-key..."]
    eq_refl) as (_ & Hfs & Hv).
  split; [exact Hfs|]. by rewrite (Hsame 2 0).
Defined.

(** ** A batch without any instance index *)

Lemma main_first_unit a env schema fs :
  0 < count a →
  main a env schema fs
  = match loop_body a env schema 0 with
    | UnitRaise e => (Uncaught e, fs)
    | UnitInvalid errors => (ValidationExit 0 errors, fs)
    | UnitWrite filename config =>
        run_loop (loop_body a env schema) (seqZ 1 (count a - 1)) 1
          (<[filename := config]> fs)
    end.
Proof.
  intros Hcount. unfold main, range. rewrite seqZ_cons by lia. simpl.
  by destruct (loop_body a env schema 0).
Qed.

(** C9, as amended: when [count > 1] and neither a workstation identifier
    nor an instance index is supplied, the index of every unit is null and
    the run ends in unit 0 with exit status 1 and no file written.  Without
    a display name the type error is raised while the name is formatted,
    before any record exists.  With a display name the record of unit 0 is
    synthesized and validated first: the run then reports its validation
    errors if it has any, and otherwise raises the type error at the
    file-name suffix. *)
Theorem main_without_index
    (a : args) (env : gmap string pyval) (schema : schema_doc) (fs : files) :
  count a > 1 →
  given (workstation_id a) = false →
  instance_index a = None →
  (∀ i, unit_idx a i = None) ∧
  (main a env schema fs).2 = fs ∧
  exit_status (main a env schema fs).1 = 1 ∧
  (given (ldplayer_name a) = false →
   unit_config a env 0 = Raise TypeError ∧
   (main a env schema fs).1 = Uncaught TypeError) ∧
  (given (ldplayer_name a) = true →
   unit_config a env 0
   = generate_single_config env (workstation_id a) None (location a)
       (ldplayer_name a) ∧
   unit_filename a 0 = Raise TypeError ∧
   (main a env schema fs).1
   = match unit_validation a env schema 0 with
     | Ok [] => Uncaught TypeError
     | Ok errors => ValidationExit 0 errors
     | Raise e => Uncaught e
     end).
Proof.
  intros Hcount Hws Hidx.
  assert (∀ i, unit_idx a i = None) as Hnone.
  { intros i. unfold unit_idx. by rewrite Hws. }
  assert (unit_filename a 0 = Raise TypeError) as Hfile.
  { rewrite unit_filename_batch by lia. by rewrite Hnone. }
  assert ((count a >? 1) = true) as Hgt by (apply Z.gtb_lt; lia).
  split; [exact Hnone|].
  rewrite main_first_unit by lia.
  unfold loop_body, unit_validation, unit_config, unit_name.
  rewrite Hfile, Hgt, Hnone.
  destruct (given (ldplayer_name a)); simpl.
  - destruct (generate_single_config env (workstation_id a) None (location a)
                (ldplayer_name a)) as [cfg|e]; simpl.
    + destruct (validate_config cfg schema) as [[|err errs]|e]; simpl;
        repeat split; discriminate.
    + repeat split; discriminate.
  - repeat split; discriminate.
Qed.

Lemma main_without_index_witness :
  main (single None 2) env_minimal schema_basic ∅ = (Uncaught TypeError, ∅) ∧
  unit_config (single None 2) env_minimal 0 = Raise TypeError.
Proof.
  destruct (main_without_index (single None 2) env_minimal schema_basic ∅)
    as (_ & Hfs & _ & Hplain & _); [reflexivity..|].
  destruct Hplain as [Hcfg Hmain]; [reflexivity|].
  split; [|exact Hcfg].
  rewrite (surjective_pairing (main _ _ _ _)). by rewrite Hfs, Hmain.
Defined.

(** C9 fails as stated: with a display name on the command line the record
    of unit 0 is produced, and a record with a malformed credential ends the
    run with its validation errors, not with a type error. *)
Lemma main_without_index_named :
  count named_batch > 1 ∧
  workstation_id named_batch = None ∧
  instance_index named_batch = None ∧
  (∃ cfg, unit_config named_batch env_minimal 0 = Ok cfg ∧
          cfg !! "instance_index" = Some PNone) ∧
  main named_batch env_bad_key schema_basic ∅
  = (ValidationExit 0
       ["enrollment_api_key должен начинаться с 'sphr_', получено: secret-key..."],
     ∅).
Proof.
  split; [reflexivity|]. split; [reflexivity|]. split; [reflexivity|].
  split; [eexists; split; reflexivity | reflexivity].
Qed.

(** * Further properties of the code *)

(** ** The synthesized record *)

(** The metadata of a record holds the display name, when one is given and
    non-empty, under [ldplayer_name]; the marker [clone_source] exactly when
    the workstation identifier is given and non-empty and an instance index
    is passed; and nothing else. *)
Theorem generate_single_config_meta
    (env : gmap string pyval) (ws : option string) (idx : option Z)
    (loc name : option string) (cfg : gmap string pyval) :
  generate_single_config env ws idx loc name = Ok cfg →
  ∃ meta : gmap string pyval,
    cfg !! "meta" = Some (PDict meta) ∧
    meta !! "ldplayer_name"
    = match name with
      | Some s => if bool_decide (s = "") then None else Some (PStr s)
      | None => None
      end ∧
    meta !! "clone_source"
    = match ws, idx with
      | Some w, Some _ =>
          if bool_decide (w = "") then None else Some (PStr "auto-generated")
      | _, _ => None
      end ∧
    (∀ k, k ≠ "ldplayer_name" → k ≠ "clone_source" → meta !! k = None).
Proof.
  intros (v1 & v2 & v3 & _ & _ & _ & ->)%generate_single_config_Ok.
  exists (meta_of ws idx name). split; [by rewrite lookup_insert_eq|].
  unfold meta_of.
  assert (given name = match name with
                       | Some s => negb (bool_decide (s = ""))
                       | None => false
                       end) as ->.
  { destruct name as [s|]; [|reflexivity]. case_bool_decide as Hs.
    - by subst s.
    - by apply given_Some. }
  assert (given ws = match ws with
                     | Some s => negb (bool_decide (s = ""))
                     | None => false
                     end) as ->.
  { destruct ws as [s|]; [|reflexivity]. case_bool_decide as Hs.
    - by subst s.
    - by apply given_Some. }
  destruct name as [s|], ws as [w|], idx as [z|]; simpl;
    repeat case_bool_decide; simpl;
    try (exfalso; eauto; fail);
    repeat split; intros; by simplify_map_eq.
Qed.

Lemma generate_single_config_meta_witness :
  ∃ meta : gmap string pyval,
    meta !! "ldplayer_name" = Some (PStr "Farm-042") ∧
    meta !! "clone_source" = Some (PStr "auto-generated") ∧
    meta !! "comment" = None.
Proof.
  destruct (generate_single_config env_full (Some "ws-PC-FARM-01") (Some 42)
              None (Some "Farm-042")) as [cfg|e] eqn:Hcfg;
    [|discriminate Hcfg].
  destruct (generate_single_config_meta _ _ _ _ _ _ Hcfg)
    as (meta & _ & Hname & Hclone & Hother).
  exists meta. split; [exact Hname|]. split; [exact Hclone|].
  apply Hother; discriminate.
Defined.

(** A record has exactly the twelve keys of the dict literal, whatever the
    environment document holds besides, and carries the workstation
    identifier and instance index as passed (null when not passed). *)
Theorem generate_single_config_keys
    (env : gmap string pyval) (ws : option string) (idx : option Z)
    (loc name : option string) (cfg : gmap string pyval) :
  generate_single_config env ws idx loc name = Ok cfg →
  (∀ k, is_Some (cfg !! k) ↔ k ∈ record_keys) ∧
  cfg !! "workstation_id" = Some (of_str ws) ∧
  cfg !! "instance_index" = Some (of_int idx).
Proof.
  intros (v1 & v2 & v3 & _ & _ & _ & ->)%generate_single_config_Ok.
  unfold base_config, record_keys. split; [|split; by simplify_map_eq].
  intros k. rewrite !lookup_insert_is_Some', lookup_empty, is_Some_alt.
  rewrite !elem_of_cons, elem_of_nil.
  split; intros H;
    repeat (destruct H as [H|H];
            [subst k; repeat (first [by left | right])|]);
    contradiction.
Qed.

Lemma generate_single_config_keys_witness :
  ∃ cfg, generate_single_config env_full None (Some 7) None None = Ok cfg ∧
         cfg !! "workstation_id" = Some PNone ∧
         cfg !! "instance_index" = Some (PInt 7) ∧
         ¬ is_Some (cfg !! "ota_enabled").
Proof.
  destruct (generate_single_config env_full None (Some 7) None None)
    as [cfg|e] eqn:Hcfg; [|discriminate Hcfg].
  destruct (generate_single_config_keys _ _ _ _ _ _ Hcfg) as (Hk & Hws & Hidx).
  exists cfg. repeat split; try assumption.
  rewrite Hk. unfold record_keys. rewrite !elem_of_cons, elem_of_nil.
  intros H. repeat (destruct H as [H|H]; [discriminate H|]). exact H.
Defined.

(** ** The validator on synthesized records *)

Lemma validate_config_Ok_inv config schema (errs : list string) :
  validate_config config schema = Ok errs →
  ∃ tail, errs = map required_error
                   (List.filter (missing_or_null config) (schema_required schema))
                 ++ tail.
Proof.
  rewrite validate_config_cases.
  destruct (config !! "enrollment_api_key") as [[|b|z|s|l|d]|]; simpl.
  - intros [= <-]. exists []. by rewrite app_nil_r.
  - destruct b; [discriminate|].
    intros [= <-]. exists []. by rewrite app_nil_r.
  - destruct (z =? 0); simpl; [|discriminate].
    intros [= <-]. exists []. by rewrite app_nil_r.
  - intros [= <-]. by eexists.
  - destruct l; [|discriminate].
    intros [= <-]. exists []. by rewrite app_nil_r.
  - case_bool_decide; simpl; [|discriminate].
    intros [= <-]. exists []. by rewrite app_nil_r.
  - intros [= <-]. exists []. by rewrite app_nil_r.
Qed.

Lemma validate_config_reports config schema (f : string) (errs : list string) :
  f ∈ schema_required schema →
  missing_or_null config f = true →
  validate_config config schema = Ok errs →
  required_error f ∈ errs.
Proof.
  intros Hf Hm (tail & ->)%validate_config_Ok_inv.
  apply elem_of_app. left. apply list_elem_of_fmap. exists f.
  split; [reflexivity|].
  apply list_elem_of_In, List.filter_In. split; [|exact Hm].
  by apply list_elem_of_In.
Qed.

(** A schema that requires [device_id], or a field that is not one of the
    twelve keys of a record, rejects every record the synthesizer returns:
    the validator never returns the empty list for it, and any list it
    returns names that field. *)
Theorem validate_config_synthesized
    (env : gmap string pyval) (ws : option string) (idx : option Z)
    (loc name : option string) (cfg : gmap string pyval)
    (schema : schema_doc) (f : string) :
  generate_single_config env ws idx loc name = Ok cfg →
  f ∈ schema_required schema →
  f = "device_id" ∨ f ∉ record_keys →
  validate_config cfg schema ≠ Ok [] ∧
  (∀ errs, validate_config cfg schema = Ok errs → required_error f ∈ errs).
Proof.
  intros Hcfg Hf Hcase.
  assert (missing_or_null cfg f = true) as Hm.
  { unfold missing_or_null. destruct Hcase as [-> | Hout].
    - apply generate_single_config_Ok in Hcfg
        as (v1 & v2 & v3 & _ & _ & _ & ->).
      unfold base_config. by simplify_map_eq.
    - destruct (generate_single_config_Ok env ws idx loc name cfg) as [Hinv _].
      destruct (Hinv Hcfg) as (v1 & v2 & v3 & _ & _ & _ & Heq).
      destruct (cfg !! f) as [v|] eqn:Hlook; [|reflexivity].
      exfalso. apply Hout. subst cfg. unfold base_config in Hlook.
      unfold record_keys. rewrite !elem_of_cons.
      repeat (rewrite lookup_insert in Hlook;
              case_decide;
              [subst f; repeat (first [by left | right])|]).
      by rewrite lookup_empty in Hlook. }
  assert (∀ errs, validate_config cfg schema = Ok errs → required_error f ∈ errs)
    as Hall by (intros errs; by apply validate_config_reports).
  split; [|exact Hall].
  intros Hnil. apply Hall in Hnil. by apply elem_of_nil in Hnil.
Qed.

Lemma validate_config_synthesized_witness :
  ∃ cfg, generate_single_config env_full (Some "ws-PC-FARM-01") (Some 0)
           None None = Ok cfg ∧
         validate_config cfg schema_device ≠ Ok [].
Proof.
  destruct (generate_single_config env_full (Some "ws-PC-FARM-01") (Some 0)
              None None) as [cfg|e] eqn:Hcfg; [|discriminate Hcfg].
  exists cfg. split; [reflexivity|].
  destruct (validate_config_synthesized env_full (Some "ws-PC-FARM-01")
              (Some 0) None None cfg schema_device "device_id" Hcfg)
    as [Hne _].
  - unfold schema_device, schema_required. simpl. right. left.
  - by left.
  - exact Hne.
Defined.

(** Without a schema file no record is rejected for a missing field: the
    validator returns the empty list or the single credential-format
    error. *)
Theorem validate_config_no_schema
    (config : gmap string pyval) (errs : list string) :
  validate_config config (load_schema None) = Ok errs →
  errs = [] ∨
  ∃ s, config !! "enrollment_api_key" = Some (PStr s) ∧
       s ≠ "" ∧ String.prefix "sphr_" s = false ∧
       errs = [key_format_error s].
Proof.
  rewrite validate_config_cases. unfold load_schema, schema_required. simpl.
  destruct (config !! "enrollment_api_key") as [[|b|z|s|l|d]|]; simpl.
  - intros [= <-]. by left.
  - destruct b; [discriminate | intros [= <-]; by left].
  - destruct (z =? 0); simpl; [intros [= <-]; by left | discriminate].
  - destruct (String.eqb_spec s "") as [Hs|Hs]; simpl.
    + intros [= <-]. by left.
    + destruct (String.prefix "sphr_" s) eqn:Hp; simpl.
      * intros [= <-]. by left.
      * intros [= <-]. right. by exists s.
  - destruct l; [intros [= <-]; by left | discriminate].
  - case_bool_decide; simpl; [intros [= <-]; by left | discriminate].
  - intros [= <-]. by left.
Qed.

Lemma validate_config_no_schema_witness :
  (@nil string) = [] ∨
  ∃ s, (∅ : gmap string pyval) !! "enrollment_api_key" = Some (PStr s) ∧
       s ≠ "" ∧ String.prefix "sphr_" s = false ∧
       (@nil string) = [key_format_error s].
Proof.
  apply (validate_config_no_schema ∅ []). reflexivity.
Defined.

(** A credential that is not a string is never given a format error: when
    it is falsy (null, [false], 0, an empty list or dict) the validator
    returns the required-field errors alone, and when it is truthy the call
    of [startswith] raises [AttributeError]. *)
Theorem validate_config_credential_type
    (config : gmap string pyval) (schema : schema_doc) (v : pyval) :
  config !! "enrollment_api_key" = Some v →
  (∀ s, v ≠ PStr s) →
  validate_config config schema
  = if truthy v then Raise AttributeError
    else Ok (map required_error
               (List.filter (missing_or_null config) (schema_required schema))).
Proof.
  intros Hkey Hstr. rewrite validate_config_cases, Hkey.
  destruct v as [|b|z|s|l|d]; try reflexivity.
  by destruct (Hstr s).
Qed.

Lemma validate_config_credential_type_witness :
  validate_config env_numeric_key schema_basic = Raise AttributeError.
Proof.
  apply (validate_config_credential_type env_numeric_key schema_basic
           (PInt 12345)).
  - reflexivity.
  - intros s. discriminate.
Defined.

(** The preview of the credential in the format error is a prefix of the
    credential holding its first 10 code points, or all of them when there
    are fewer: the message never shows more of the key. *)
Theorem key_format_error_preview (key : string) :
  ∃ preview : string,
    key_format_error key
    = "enrollment_api_key должен начинаться с 'sphr_', получено: "
        +:+ preview +:+ "..." ∧
    String.prefix preview key = true ∧
    code_points preview = Nat.min 10 (code_points key).
Proof.
  exists (slice_to 10 key). split; [reflexivity|]. split.
  - apply slice_to_prefix.
  - apply slice_to_code_points.
Qed.

(** ** Complete runs *)

Lemma loop_body_write a env schema i (f : string) (c : gmap string pyval) :
  loop_body a env schema i = UnitWrite f c ↔
  unit_config a env i = Ok c ∧ validate_config c schema = Ok [] ∧
  unit_filename a i = Ok f.
Proof.
  unfold loop_body. split.
  - destruct (unit_config a env i) as [cfg|e]; [|discriminate].
    destruct (validate_config cfg schema) as [[|err errs]|e] eqn:Hv;
      try discriminate.
    destruct (unit_filename a i) as [f'|e]; [|discriminate].
    intros [= -> ->]. by rewrite Hv.
  - by intros (-> & -> & ->).
Qed.

Lemma unit_config_device_id a env i cfg :
  unit_config a env i = Ok cfg → cfg !! "device_id" = Some PNone.
Proof.
  intros (name & _ & H)%unit_config_Ok.
  apply generate_single_config_Ok in H as (v1 & v2 & v3 & _ & _ & _ & ->).
  unfold base_config. by simplify_map_eq.
Qed.

Lemma main_all_write a env schema fs :
  (∀ i, 0 ≤ i < count a → is_write (loop_body a env schema i)) →
  main a env schema fs
  = (Finished (Z.max 0 (count a)),
     written (loop_body a env schema) (range (count a)) fs).
Proof.
  intros Hall. unfold main.
  rewrite <- (app_nil_r (range (count a))) at 1.
  rewrite run_loop_writes by (intros j Hj%elem_of_range; by apply Hall).
  simpl. unfold range at 1. rewrite length_seqZ. do 2 f_equal. lia.
Qed.

Lemma main_Finished_inv a env schema fs (generated : Z) :
  (main a env schema fs).1 = Finished generated →
  (∀ i, 0 ≤ i < count a → is_write (loop_body a env schema i)) ∧
  main a env schema fs
  = (Finished (Z.max 0 (count a)),
     written (loop_body a env schema) (range (count a)) fs).
Proof.
  intros Hfin.
  assert (∀ i, 0 ≤ i < count a → is_write (loop_body a env schema i)) as Hall.
  { intros i Hi. pose proof (loop_body_uniform a env schema 0 i) as Hu.
    rewrite main_first_unit in Hfin by lia.
    destruct (loop_body a env schema 0); [discriminate Hfin..|exact Hu]. }
  split; [exact Hall | by apply main_all_write].
Qed.

(** A run with [count ≤ 0] passes through the loop no time: it finishes
    with status 0 and "0 generated", writes nothing and validates nothing,
    whatever the environment document and the schema hold. *)
Theorem main_empty_batch
    (a : args) (env : gmap string pyval) (schema : schema_doc) (fs : files) :
  count a ≤ 0 →
  main a env schema fs = (Finished 0, fs) ∧
  exit_status (main a env schema fs).1 = 0.
Proof.
  intros Hcount. unfold main, range. rewrite seqZ_nil by assumption.
  split; reflexivity.
Qed.

Lemma main_empty_batch_witness :
  main (farm 0 5) env_no_url schema_device ∅ = (Finished 0, ∅) ∧
  exit_status (main (farm 0 5) env_no_url schema_device ∅).1 = 0.
Proof. apply (main_empty_batch (farm 0 5) env_no_url schema_device ∅). simpl. lia. Defined.

(** A run for one unit ([count = 1]) passes the display name on as given,
    without a ['Farm-'] default, and never formats the index, so no type
    error can come from a null index.  It ends before any write with the
    synthesizer's or the validator's exception, or with the validation
    errors of unit 0; otherwise the record is handed to the writer under
    the override name if that is given and non-empty, else under
    ['sphere-agent-config.json']. *)
Theorem main_single_unit_cases
    (a : args) (env : gmap string pyval) (schema : schema_doc) (fs : files) :
  count a = 1 →
  match generate_single_config env (workstation_id a) (unit_idx a 0)
          (location a) (ldplayer_name a) with
  | Raise e => main a env schema fs = (Uncaught e, fs)
  | Ok cfg =>
      match validate_config cfg schema with
      | Raise e => main a env schema fs = (Uncaught e, fs)
      | Ok [] =>
          loop_body a env schema 0
          = UnitWrite
              match output_file a with
              | Some f => if bool_decide (f = "")
                          then "sphere-agent-config.json" else f
              | None => "sphere-agent-config.json"
              end cfg
      | Ok errors => main a env schema fs = (ValidationExit 0 errors, fs)
      end
  end.
Proof.
  intros Hcount. rewrite main_first_unit by lia.
  unfold loop_body, unit_config, unit_name, unit_filename.
  rewrite Hcount. simpl.
  destruct (generate_single_config env (workstation_id a) (unit_idx a 0)
              (location a) (ldplayer_name a)) as [cfg|e]; [|reflexivity].
  destruct (validate_config cfg schema) as [[|err errs]|e]; try reflexivity.
  do 2 f_equal. destruct (output_file a) as [f|]; [|reflexivity].
  case_bool_decide as Hf.
  - by subst f.
  - by rewrite given_Some.
Qed.

Lemma main_single_unit_cases_witness :
  (∃ cfg, loop_body (single_named "device-42.json") env_full schema_basic 0
          = UnitWrite "device-42.json" cfg ∧
          cfg !! "instance_index" = Some (PInt 42)) ∧
  main (single None 1) env_bad_key schema_basic ∅
  = (ValidationExit 0
       ["enrollment_api_key должен начинаться с 'sphr_', получено: secret-key..."],
     ∅).
Proof.
  split.
  - eexists. split.
    + apply (main_single_unit_cases (single_named "device-42.json") env_full
               schema_basic ∅ eq_refl).
    + reflexivity.
  - apply (main_single_unit_cases (single None 1) env_bad_key schema_basic ∅
             eq_refl).
Defined.

(** A run that finishes reports [max 0 count] records generated, and every
    unit of it was synthesized, passed validation with no error and got a
    file name. *)
Theorem main_finished
    (a : args) (env : gmap string pyval) (schema : schema_doc) (fs : files)
    (generated : Z) :
  (main a env schema fs).1 = Finished generated →
  generated = Z.max 0 (count a) ∧
  ∀ i, 0 ≤ i < count a →
       ∃ cfg filename,
         unit_config a env i = Ok cfg ∧
         validate_config cfg schema = Ok [] ∧
         unit_filename a i = Ok filename.
Proof.
  intros Hfin. destruct (main_Finished_inv _ _ _ _ _ Hfin) as [Hall Hmain].
  split.
  - rewrite Hmain in Hfin. simpl in Hfin. congruence.
  - intros i Hi. destruct (Hall i Hi) as (f & c & Hw).
    exists c, f. by apply loop_body_write.
Qed.

Lemma main_finished_witness :
  3 = Z.max 0 (count (farm 3 5)) ∧
  ∀ i, 0 ≤ i < count (farm 3 5) →
       ∃ cfg filename,
         unit_config (farm 3 5) env_minimal i = Ok cfg ∧
         validate_config cfg schema_basic = Ok [] ∧
         unit_filename (farm 3 5) i = Ok filename.
Proof.
  apply (main_finished (farm 3 5) env_minimal schema_basic ∅ 3).
  reflexivity.
Defined.

(** When the synthesizer cannot build a record from the environment
    document, a run of at least one unit ends in unit 0 with an uncaught
    exception and writes nothing: the synthesizer's [KeyError], unless
    formatting the display name of unit 0 raised before it. *)
Theorem main_synthesis_error
    (a : args) (env : gmap string pyval) (schema : schema_doc) (fs : files)
    (e : exn) :
  generate_single_config env None None None None = Raise e →
  0 < count a →
  main a env schema fs
  = (Uncaught match unit_name a 0 with Raise t => t | Ok _ => e end, fs).
Proof.
  intros He Hcount. rewrite main_first_unit by assumption.
  unfold loop_body, unit_config.
  destruct (unit_name a 0) as [n|t]; simpl; [|reflexivity].
  by rewrite (generate_single_config_Raise _ _ _ _ _ _ He).
Qed.

Lemma main_synthesis_error_witness :
  main (farm 3 5) env_no_url schema_basic ∅
  = (Uncaught (KeyError "server_url"), ∅).
Proof.
  apply (main_synthesis_error (farm 3 5) env_no_url schema_basic ∅
           (KeyError "server_url")).
  - reflexivity.
  - simpl. lia.
Defined.

(** ** What a run leaves in the directory *)

Lemma written_app (body : Z → unit_outcome) (l1 l2 : list Z) (fs : files) :
  written body (l1 ++ l2) fs = written body l2 (written body l1 fs).
Proof. unfold written. apply foldl_app. Qed.

Lemma written_lookup_last (body : Z → unit_outcome) (pre post : list Z)
    (j : Z) (fs : files) (name : string) (c : gmap string pyval) :
  body j = UnitWrite name c →
  (∀ j' c', j' ∈ post → body j' ≠ UnitWrite name c') →
  written body (pre ++ j :: post) fs !! name = Some c.
Proof.
  intros Hj Hpost. rewrite written_app.
  change (written body (j :: post) (written body pre fs))
    with (written body post
            match body j with
            | UnitWrite filename config =>
                <[filename := config]> (written body pre fs)
            | _ => written body pre fs
            end).
  rewrite Hj, written_lookup_other by assumption.
  apply lookup_insert_eq.
Qed.

Lemma run_loop_union (body : Z → unit_outcome) (units : list Z)
    (generated : Z) (m fs : files) :
  run_loop body units generated (m ∪ fs)
  = ((run_loop body units generated m).1,
     (run_loop body units generated m).2 ∪ fs).
Proof.
  revert generated m. induction units as [|i units IH]; intros generated m;
    simpl; [reflexivity|].
  destruct (body i) as [e|errs|f c]; try reflexivity.
  by rewrite <- IH, insert_union_l.
Qed.

(** A record reaches the writer only after validation: when the loop body
    hands the record of a unit to the writer, every field of the schema's
    [required] list is present and non-null in it, a credential string in
    it is empty or starts with [sphr_], and its [device_id] is null, so
    [device_id] is not a required field. *)
Theorem loop_body_write_valid
    (a : args) (env : gmap string pyval) (schema : schema_doc) (i : Z)
    (filename : string) (cfg : gmap string pyval) :
  loop_body a env schema i = UnitWrite filename cfg →
  unit_config a env i = Ok cfg ∧
  unit_filename a i = Ok filename ∧
  (∀ fields f, required schema = Some fields → f ∈ fields →
               ∃ v, cfg !! f = Some v ∧ v ≠ PNone) ∧
  (∀ s, cfg !! "enrollment_api_key" = Some (PStr s) →
        s = "" ∨ String.prefix "sphr_" s = true) ∧
  cfg !! "device_id" = Some PNone ∧
  (∀ fields, required schema = Some fields → "device_id" ∉ fields).
Proof.
  intros (Hc & Hv & Hf)%loop_body_write.
  pose proof (unit_config_device_id a env i cfg Hc) as Hid.
  assert (∀ fields f, required schema = Some fields → f ∈ fields →
                      ∃ v, cfg !! f = Some v ∧ v ≠ PNone) as Hreq.
  { intros fields f Hfields Hin.
    apply validate_config_Ok_inv in Hv as (tail & Htail).
    symmetry in Htail. apply app_eq_nil in Htail as [Hmap _].
    apply fmap_nil_inv in Hmap.
    apply (proj1 (filter_missing_nil cfg (schema_required schema)) Hmap).
    unfold schema_required. by rewrite Hfields. }
  repeat split; try assumption.
  - intros s Hs. rewrite validate_config_cases, Hs in Hv.
    destruct (String.eqb_spec s "") as [Hempty|Hempty]; [by left|].
    destruct (String.prefix "sphr_" s); [by right|]. simpl in Hv.
    apply Ok_inj, app_eq_nil in Hv as [_ Hv]. discriminate Hv.
  - intros fields Hfields Hin.
    destruct (Hreq fields "device_id" Hfields Hin) as (v & Hv' & Hne).
    rewrite Hid in Hv'. injection Hv' as <-. by apply Hne.
Qed.

Lemma loop_body_write_valid_witness :
  ∃ cfg,
    loop_body (farm 3 5) env_minimal schema_basic 1
    = UnitWrite "sphere-agent-config-006.json" cfg ∧
    (∃ v, cfg !! "server_url" = Some v ∧ v ≠ PNone) ∧
    cfg !! "device_id" = Some PNone.
Proof.
  destruct (loop_body (farm 3 5) env_minimal schema_basic 1)
    as [e|errs|f cfg] eqn:Hbody; try (by vm_compute in Hbody).
  assert (f = "sphere-agent-config-006.json") as ->.
  { assert (match loop_body (farm 3 5) env_minimal schema_basic 1 with
            | UnitWrite f' _ => f' | _ => "" end
            = "sphere-agent-config-006.json") as Hname by reflexivity.
    by rewrite Hbody in Hname. }
  destruct (loop_body_write_valid (farm 3 5) env_minimal schema_basic 1
              "sphere-agent-config-006.json" cfg Hbody)
    as (_ & _ & Hreq & _ & Hid & _).
  exists cfg. split; [reflexivity|]. split; [|exact Hid].
  apply (Hreq ["config_version"; "server_url"; "enrollment_api_key"]);
    [reflexivity|]. right. left.
Defined.

(** In a finished run with a non-empty workstation identifier every unit
    has a file of its own: after the run the file named for unit [i] holds
    the record of unit [i], with instance index [start_index + i]; no later
    unit has overwritten it. *)
Theorem main_workstation_batch
    (a : args) (env : gmap string pyval) (schema : schema_doc) (fs : files)
    (generated : Z) :
  given (workstation_id a) = true →
  (main a env schema fs).1 = Finished generated →
  ∀ i, 0 ≤ i < count a →
       ∃ cfg filename,
         unit_config a env i = Ok cfg ∧
         unit_filename a i = Ok filename ∧
         (main a env schema fs).2 !! filename = Some cfg ∧
         cfg !! "instance_index" = Some (PInt (start_index a + i)).
Proof.
  intros Hws Hfin i Hi.
  destruct (main_Finished_inv _ _ _ _ _ Hfin) as [Hall ->]. simpl.
  destruct (Hall i Hi) as (f & c & Hw).
  pose proof Hw as (Hc & Hv & Hf)%loop_body_write.
  exists c, f. repeat split; try assumption.
  - rewrite (range_split (count a) i) by assumption.
    apply written_lookup_last; [exact Hw|].
    intros j c' Hj%elem_of_seqZ (_ & _ & Hf')%loop_body_write.
    destruct (decide (count a = 1)) as [Hone|Hmany]; [lia|].
    rewrite unit_filename_batch in Hf, Hf' by assumption.
    unfold unit_idx in Hf, Hf'. rewrite Hws in Hf, Hf'.
    rewrite <- Hf' in Hf. apply Ok_inj, batch_filename_inj in Hf. lia.
  - rewrite (unit_config_instance_index a env i c Hc).
    unfold unit_idx. by rewrite Hws.
Qed.

Lemma main_workstation_batch_witness :
  ∃ cfg,
    (main (farm 3 5) env_minimal schema_basic ∅).2
      !! "sphere-agent-config-006.json" = Some cfg ∧
    cfg !! "instance_index" = Some (PInt 6).
Proof.
  destruct (main_workstation_batch (farm 3 5) env_minimal schema_basic ∅ 3
              eq_refl eq_refl 1) as (cfg & f & _ & Hf & Hlook & Hidx).
  - simpl. lia.
  - exists cfg. split; [|exact Hidx].
    assert (f = "sphere-agent-config-006.json") as <-
      by (apply Ok_inj; rewrite <- Hf; reflexivity).
    exact Hlook.
Defined.

(** Without a (non-empty) workstation identifier the units of a run do not
    differ: every pass through the loop body synthesizes the same record,
    gets the same verdict and, if it reaches the writer, hands it the same
    record under the same file name. *)
Theorem loop_body_shared_index
    (a : args) (env : gmap string pyval) (schema : schema_doc) (i j : Z) :
  given (workstation_id a) = false →
  unit_config a env i = unit_config a env j ∧
  unit_filename a i = unit_filename a j ∧
  loop_body a env schema i = loop_body a env schema j.
Proof.
  intros Hws.
  assert (unit_config a env i = unit_config a env j) as Hc.
  { unfold unit_config, unit_name, unit_idx. by rewrite Hws. }
  assert (unit_filename a i = unit_filename a j) as Hf.
  { unfold unit_filename, unit_idx. by rewrite Hws. }
  split; [exact Hc|]. split; [exact Hf|].
  unfold loop_body. by rewrite Hc, Hf.
Qed.

Lemma loop_body_shared_index_witness :
  loop_body (single (Some 9) 4) env_minimal schema_basic 3
  = loop_body (single (Some 9) 4) env_minimal schema_basic 0 ∧
  unit_filename (single (Some 9) 4) 3 = Ok "sphere-agent-config-009.json".
Proof.
  destruct (loop_body_shared_index (single (Some 9) 4) env_minimal
              schema_basic 3 0 eq_refl) as (_ & Hf & Hbody).
  split; [exact Hbody|]. by rewrite Hf.
Defined.

(** A run does not read the directory: started on a directory [fs] it ends
    as on the empty directory, and leaves its own files laid over [fs].
    Running it again on its own result changes nothing. *)
Theorem main_overlay
    (a : args) (env : gmap string pyval) (schema : schema_doc) (fs : files) :
  main a env schema fs
  = ((main a env schema ∅).1, (main a env schema ∅).2 ∪ fs) ∧
  main a env schema (main a env schema fs).2 = main a env schema fs.
Proof.
  assert (∀ fs', main a env schema fs'
                 = ((main a env schema ∅).1, (main a env schema ∅).2 ∪ fs'))
    as Hover.
  { intros fs'. unfold main.
    rewrite <- (left_id_L ∅ (∪) fs') at 1. apply run_loop_union. }
  split; [apply Hover|].
  rewrite (Hover (main a env schema fs).2), (Hover fs). simpl.
  by rewrite (assoc_L (∪)), (idemp_L (∪)).
Qed.
